(** * Basic blocks of the AutoGPT platform backend

    A shallow embedding of [backend/blocks/basic.py]: the execution routines
    of the eleven basic blocks, the Python values they handle, and the
    generator protocol through which they emit [(field_name, value)] events.

    Layout: the data model and the routines first, then the properties. *)

From Stdlib Require Import ZArith String List Bool Lia.
From stdpp Require Import base option list strings gmap.

Local Open Scope string_scope.
Local Open Scope list_scope.
Local Open Scope nat_scope.

(** ** Python values *)

(** Keys of a [dict] and of the lookup block ([key: str | int]): text and
    integers.  A boolean key hashes and compares as the integer 0 or 1, so it
    is the same key as [KInt 0] or [KInt 1]. *)
Inductive dict_key : Type :=
| KStr (s : string)
| KInt (z : Z).

#[export] Instance dict_key_eq_dec : EqDecision dict_key.
Proof. solve_decision. Defined.

#[local] Set Warnings "-register-all".

(** The values a field typed [Any] carries.  A [dict] keeps its insertion
    order, so it is an association list; an object is an identity together
    with its instance attributes (as [MockObject] builds them).  Floating
    point numbers are outside the model. *)
Inductive Any : Type :=
| VNone
| VBool (b : bool)
| VInt (z : Z)
| VStr (s : string)
| VList (items : list Any)
| VDict (entries : list (dict_key * Any))
| VObj (oid : positive) (attrs : list (string * Any)).

Abbreviation dict := (list (dict_key * Any)).

Definition key_eqb (a b : dict_key) : bool :=
  match a, b with
  | KStr s, KStr t => String.eqb s t
  | KInt x, KInt y => Z.eqb x y
  | _, _ => false
  end.

(** [d.get(k)]: the value stored under [k], if any. *)
Fixpoint dict_get {V : Type} (k : dict_key) (d : list (dict_key * V)) : option V :=
  match d with
  | [] => None
  | (k', v) :: d' => if key_eqb k k' then Some v else dict_get k d'
  end.

(** [d[k] = v]: overwrite in place when [k] is present, else add at the end. *)
Fixpoint dict_set {V : Type} (k : dict_key) (v : V) (d : list (dict_key * V))
  : list (dict_key * V) :=
  match d with
  | [] => [(k, v)]
  | (k', v') :: d' =>
      if key_eqb k k' then (k', v) :: d' else (k', v') :: dict_set k v d'
  end.

(** Instance attributes of an object, by name. *)
Fixpoint attr_get (name : string) (attrs : list (string * Any)) : option Any :=
  match attrs with
  | [] => None
  | (n, v) :: rest => if String.eqb name n then Some v else attr_get name rest
  end.

(** Truth value testing ([bool(v)], as used by [if v:] and [v or w]). *)
Definition truthy (v : Any) : bool :=
  match v with
  | VNone => false
  | VBool b => b
  | VInt z => negb (Z.eqb z 0)
  | VStr s => negb (String.eqb s "")
  | VList l => match l with [] => false | _ => true end
  | VDict d => match d with [] => false | _ => true end
  | VObj _ _ => true
  end.

(** [a or b] *)
Definition py_or (a b : Any) : Any := if truthy a then a else b.

(** [v is not None] *)
Definition is_not_None (v : Any) : bool :=
  match v with VNone => false | _ => true end.

(** [a == b].  Booleans compare as the integers 0 and 1, sequences
    elementwise, mappings regardless of order, objects by identity. *)
Fixpoint py_eq (a b : Any) {struct a} : bool :=
  match a, b with
  | VNone, VNone => true
  | VBool x, VBool y => Bool.eqb x y
  | VBool x, VInt y => Z.eqb (Z.b2z x) y
  | VInt x, VBool y => Z.eqb x (Z.b2z y)
  | VInt x, VInt y => Z.eqb x y
  | VStr s, VStr t => String.eqb s t
  | VList l, VList m =>
      (fix all2 (l m : list Any) {struct l} : bool :=
         match l, m with
         | [], [] => true
         | x :: l', y :: m' => py_eq x y && all2 l' m'
         | _, _ => false
         end) l m
  | VDict d, VDict e =>
      Nat.eqb (length d) (length e) &&
      (fix all_in (d : dict) {struct d} : bool :=
         match d with
         | [] => true
         | (k, v) :: d' =>
             match dict_get k e with
             | Some w => py_eq v w
             | None => false
             end && all_in d'
         end) d
  | VObj i _, VObj j _ => Pos.eqb i j
  | _, _ => false
  end.

(** Index normalisation of a slice bound: a negative bound counts from the
    end, and the result is clamped to [0, len]. *)
Definition slice_bound (len : nat) (i : Z) : nat :=
  let j := if (i <? 0)%Z then (i + Z.of_nat len)%Z else i in
  Nat.min len (Z.to_nat j).

(** [l[lo:hi]]; an omitted bound is [None]. *)
Definition py_slice {A : Type} (lo hi : option Z) (l : list A) : list A :=
  let n := length l in
  let a := match lo with Some i => slice_bound n i | None => 0 end in
  let b := match hi with Some i => slice_bound n i | None => n end in
  take (b - a) (drop a l).

(** ** Exceptions and generators *)

Inductive exn_class : Type :=
| ValueError
| TypeError
| KeyError
| JSONDecodeError
| CollaboratorError.

(** A raised exception.  [exn_text] is [str(e)]; it is [None] where the text
    depends on the interpreter version and no routine reads it. *)
Record exn : Type := Exn { exn_kind : exn_class; exn_text : option string }.

Definition str_exn (e : exn) : string := default "" (exn_text e).

(** An expression that may raise. *)
Definition res (A : Type) : Type := exn + A.

#[export] Instance res_ret : MRet res := fun _ a => inr a.
#[export] Instance res_bind : MBind res := fun _ _ f m =>
  match m with
  | inl e => inl e
  | inr a => f a
  end.

(** One emitted output event. *)
Definition event : Type := string * Any.

(** A generator body: the events yielded so far, in order, and how the body
    ended (an exception that left it, or a result). *)
Definition gen (A : Type) : Type := list event * res A.

#[export] Instance gen_ret : MRet gen := fun _ a => ([], inr a).
#[export] Instance gen_bind : MBind gen := fun _ _ f m =>
  match m with
  | (es, inl e) => (es, inl e)
  | (es, inr a) => let '(es', r) := f a in (es ++ es', r)
  end.

(** [yield field, v] *)
Definition yield (field : string) (v : Any) : gen unit := ([(field, v)], inr tt).

(** [raise e] *)
Definition raise {A : Type} (e : exn) : gen A := ([], inl e).

(** An expression evaluated inside a generator body. *)
Definition lift {A : Type} (r : res A) : gen A := ([], r).

(** [try: body except <handles>: handler].  Events yielded before the
    exception stay emitted. *)
Definition try_except {A : Type} (body : gen A) (handles : exn -> bool)
    (handler : exn -> gen A) : gen A :=
  match body with
  | (es, inl e) =>
      if handles e then let '(es', r) := handler e in (es ++ es', r)
      else (es, inl e)
  | ok => ok
  end.

(** [except Exception]: every exception of the model is an [Exception]. *)
Definition except_Exception (e : exn) : bool := true.

(** [except ValueError]; [JSONDecodeError] is a subclass of it. *)
Definition except_ValueError (e : exn) : bool :=
  match exn_kind e with
  | ValueError | JSONDecodeError => true
  | _ => false
  end.

(** [for x in xs: body x] *)
Fixpoint for_each {A : Type} (xs : list A) (body : A -> gen unit) : gen unit :=
  match xs with
  | [] => mret tt
  | x :: rest => body x ;; for_each rest body
  end.

(** The events a finished run emitted and the exception that left it. *)
Definition events {A : Type} (g : gen A) : list event := fst g.
Definition raised {A : Type} (g : gen A) : option exn :=
  match snd g with inl e => Some e | inr _ => None end.

(** The fields a run emitted. *)
Definition emitted_fields {A : Type} (g : gen A) : list string := (events g).*1.

(** [range(start, stop, step)] as the list it enumerates. *)
Definition py_range (start stop step : Z) : res (list Z) :=
  if (step =? 0)%Z then
    inl (Exn ValueError (Some "range() arg 3 must not be zero"))
  else
    let count :=
      if (0 <? step)%Z then ((stop - start + step - 1) / step)%Z
      else ((start - stop - step - 1) / (- step))%Z in
    inr (map (fun i => (start + Z.of_nat i * step)%Z) (seq 0 (Z.to_nat count))).

(** ** Attribute access, membership and subscription *)

Section Attributes.
(** The attributes that the interpreter's built-in types and classes expose
    on a value besides its instance attributes (bound methods, [__class__],
    ...); the table belongs to the host language. *)
Variable builtin_attr : Any -> string -> option Any.

(** [getattr(v, name)] where [hasattr(v, name)] holds, else [None]. *)
Definition py_getattr (v : Any) (name : string) : option Any :=
  match v with
  | VObj _ attrs =>
      match attr_get name attrs with
      | Some x => Some x
      | None => builtin_attr v name
      end
  | _ => builtin_attr v name
  end.

(** [hasattr(v, name)] *)
Definition hasattr (v : Any) (name : string) : bool :=
  match py_getattr v name with Some _ => true | None => false end.

End Attributes.

(** [s in t] for two texts: [s] occurs in [t]. *)
Definition substring (s t : string) : bool :=
  match String.index 0 s t with Some _ => true | None => false end.

(** [key in d] for a mapping [d]. *)
Definition dict_has {V : Type} (k : dict_key) (d : list (dict_key * V)) : bool :=
  match dict_get k d with Some _ => true | None => false end.

(** [key in item] for a textual [key]: membership in a mapping's keys, in a
    sequence's elements, or as a piece of a text; any other operand is not a
    container and the test raises. *)
Definition str_in (key : string) (item : Any) : res bool :=
  match item with
  | VDict d => inr (dict_has (KStr key) d)
  | VList l => inr (existsb (fun x => py_eq x (VStr key)) l)
  | VStr t => inr (substring key t)
  | _ => inl (Exn TypeError None)
  end.

(** [item[key]] for a textual [key]: defined on mappings holding the key. *)
Definition str_getitem (item : Any) (key : string) : res Any :=
  match item with
  | VDict d =>
      match dict_get (KStr key) d with
      | Some v => inr v
      | None => inl (Exn KeyError None)
      end
  | _ => inl (Exn TypeError None)
  end.

(** [l.index(v)]: position of the first element equal to [v]. *)
Fixpoint list_index (v : Any) (l : list Any) : option nat :=
  match l with
  | [] => None
  | x :: rest => if py_eq x v then Some 0 else S <$> list_index v rest
  end.

Definition index (l : list Any) (v : Any) : res Any :=
  match list_index v l with
  | Some i => inr (VInt (Z.of_nat i))
  | None => inl (Exn ValueError None)
  end.

(** [m or n] on an optional integer: [None] and [0] are false. *)
Definition int_or (m : option Z) (n : Z) : Z :=
  match m with
  | Some z => if (z =? 0)%Z then n else z
  | None => n
  end.

(** ** The blocks *)

Module FileStoreBlock.
Section Run.
(** The storage collaborator [store_media_file(graph_exec_id, file,
    return_content)]. *)
Variable store_media_file : string -> string -> bool -> res Any.

Record Input : Type := { file_in : string; base_64 : bool }.

Definition Output : list string := ["file_out"].

Definition run (input_data : Input) (graph_exec_id : string) : gen unit :=
  stored ← lift (store_media_file graph_exec_id (file_in input_data)
                   (base_64 input_data));
  yield "file_out" stored.
End Run.
End FileStoreBlock.

Module StoreValueBlock.
Record Input : Type := { input : Any; data : Any }.

Definition Output : list string := ["output"].

Definition run (input_data : Input) : gen unit :=
  yield "output" (py_or (data input_data) (input input_data)).
End StoreValueBlock.

Module PrintToConsoleBlock.
Record Input : Type := { text : Any }.

Definition Output : list string := ["output"; "status"].

Definition run (input_data : Input) : gen unit :=
  yield "output" (text input_data);;
  yield "status" (VStr "printed").
End PrintToConsoleBlock.

Module FindInDictionaryBlock.
Section Run.
(** The JSON collaborator [json.loads]. *)
Variable json_loads : string -> res Any.
Variable builtin_attr : Any -> string -> option Any.

Record Input : Type := { input : Any; key : dict_key }.

Definition Output : list string := ["output"; "missing"].

(** [[item[key] for item in obj if key in item]] *)
Fixpoint items_with_key (key : string) (obj : list Any) : res (list Any) :=
  match obj with
  | [] => mret []
  | item :: rest =>
      c ← str_in key item;
      if (c : bool) then
        v ← str_getitem item key;
        vs ← items_with_key key rest;
        mret (v :: vs)
      else items_with_key key rest
  end.

(** [[getattr(val, key) for val in obj if hasattr(val, key)]] *)
Definition attrs_with_key (key : string) (obj : list Any) : list Any :=
  omap (fun val => py_getattr builtin_attr val key) obj.

(** The first two tests of the chain, with the value they select. *)
Definition dict_entry (obj : Any) (key : dict_key) : option Any :=
  match obj with
  | VDict d => dict_get key d
  | _ => None
  end.

Definition list_element (obj : Any) (key : dict_key) : option Any :=
  match obj, key with
  | VList l, KInt i =>
      if ((0 <=? i)%Z && (i <? Z.of_nat (length l))%Z)%bool
      then l !! Z.to_nat i else None
  | _, _ => None
  end.

(** The [if]/[elif] chain of [run], on the object [obj] looked into and the
    input as it was given. *)
Definition resolve (given obj : Any) (key : dict_key) : gen unit :=
  match dict_entry obj key with
  | Some v => yield "output" v
  | None =>
  match list_element obj key with
  | Some v => yield "output" v
  | None =>
  match obj, key with
  | VList l, KStr k =>
      match l with
      | [] => yield "output" (VList [])
      | first :: _ =>
          if match first with VDict d => dict_has key d | _ => false end then
            vs ← lift (items_with_key k l);
            yield "output" (VList vs)
          else yield "output" (VList (attrs_with_key k l))
      end
  | _, _ =>
  match match key with
        | KStr k => py_getattr builtin_attr obj k
        | KInt _ => None
        end with
  | Some v => yield "output" v
  | None => yield "missing" given
  end
  end
  end
  end.

Definition run (input_data : Input) : gen unit :=
  let obj := input input_data in
  let key := key input_data in
  obj ← match obj with
        | VStr s => lift (json_loads s)
        | _ => mret obj
        end;
  resolve (input input_data) obj key.
End Run.
End FindInDictionaryBlock.

Module AddToDictionaryBlock.
Record Input : Type :=
  { dictionary : dict; key : string; value : Any; entries : dict }.

Definition Output : list string := ["updated_dictionary"; "error"].

Definition run (input_data : Input) : gen unit :=
  let updated_dict := dictionary input_data in
  let updated_dict :=
    if (is_not_None (value input_data)
        && negb (String.eqb (key input_data) ""))%bool
    then dict_set (KStr (key input_data)) (value input_data) updated_dict
    else updated_dict in
  let updated_dict :=
    foldl (fun d kv => dict_set (fst kv) (snd kv) d) updated_dict
      (entries input_data) in
  yield "updated_dictionary" (VDict updated_dict).
End AddToDictionaryBlock.

Module AddToListBlock.
Record Input : Type :=
  { list : Datatypes.list Any;
    entry : Any;
    entries : Datatypes.list Any;
    position : option Z }.

Definition Output : Datatypes.list string := ["updated_list"; "error"].

Definition run (input_data : Input) : gen unit :=
  let entries_added := entries input_data in
  let entries_added :=
    if truthy (entry input_data)
    then entries_added ++ [entry input_data]
    else entries_added in
  let updated_list := list input_data in
  let updated_list :=
    match position input_data with
    | Some pos =>
        py_slice None (Some pos) updated_list ++ entries_added
          ++ py_slice (Some pos) None updated_list
    | None => updated_list ++ entries_added
    end in
  yield "updated_list" (VList updated_list).
End AddToListBlock.

Module FindInListBlock.
Record Input : Type := { list : Datatypes.list Any; value : Any }.

Definition Output : Datatypes.list string :=
  ["index"; "found"; "not_found_value"].

Definition run (input_data : Input) : gen unit :=
  try_except
    (i ← lift (index (list input_data) (value input_data));
     yield "index" i;;
     yield "found" (VBool true))
    except_ValueError
    (fun _ =>
       yield "found" (VBool false);;
       yield "not_found_value" (value input_data)).
End FindInListBlock.

Module NoteBlock.
Record Input : Type := { text : string }.

Definition Output : list string := ["output"].

Definition run (input_data : Input) : gen unit :=
  yield "output" (VStr (text input_data)).
End NoteBlock.

Module CreateDictionaryBlock.
Record Input : Type := { values : dict }.

Definition Output : list string := ["dictionary"; "error"].

Definition run (input_data : Input) : gen unit :=
  try_except
    (yield "dictionary" (VDict (values input_data)))
    except_Exception
    (fun e => yield "error" (VStr ("Failed to create dictionary: " ++ str_exn e))).
End CreateDictionaryBlock.

Module CreateListBlock.
Record Input : Type := { values : list Any; max_size : option Z }.

Definition Output : list string := ["list"; "error"].

Definition run (input_data : Input) : gen unit :=
  try_except
    (let len := Z.of_nat (length (values input_data)) in
     let max_size := int_or (max_size input_data) len in
     idxs ← lift (py_range 0 len max_size);
     for_each idxs (fun i =>
       yield "list"
         (VList (py_slice (Some i) (Some (i + max_size)%Z) (values input_data)))))
    except_Exception
    (fun e => yield "error" (VStr ("Failed to create list: " ++ str_exn e))).
End CreateListBlock.

Inductive TypeOptions : Type := STRING | NUMBER | BOOLEAN | LIST | DICTIONARY.

(** The target types handed to the conversion collaborator. *)
Inductive py_type : Type := Tstr | Tfloat | Tbool | Tlist | Tdict.

Module UniversalTypeConverterBlock.
Section Run.
(** The conversion collaborator [convert(value, target_type)]. *)
Variable convert : Any -> py_type -> res Any.

Record Input : Type := { value : Any; type : TypeOptions }.

Definition Output : list string := ["value"].

Definition target (t : TypeOptions) : py_type :=
  match t with
  | STRING => Tstr
  | NUMBER => Tfloat
  | BOOLEAN => Tbool
  | LIST => Tlist
  | DICTIONARY => Tdict
  end.

Definition run (input_data : Input) : gen unit :=
  try_except
    (converted_value ← lift (convert (value input_data)
                               (target (type input_data)));
     yield "value" converted_value)
    except_Exception
    (fun e => yield "error" (VStr ("Failed to convert value: " ++ str_exn e))).
End Run.
End UniversalTypeConverterBlock.

(** ** The block registry *)

Inductive Block : Type :=
| FileStore | StoreValue | PrintToConsole | FindInDictionary
| AddToDictionary | AddToList | FindInList | Note
| CreateDictionary | CreateList | UniversalTypeConverter.

(** The external collaborators a run is given. *)
Record Host : Type :=
  { store_media_file : string -> string -> bool -> res Any;
    json_loads : string -> res Any;
    builtin_attr : Any -> string -> option Any;
    convert : Any -> py_type -> res Any }.

(** One invocation: a block together with its validated input. *)
Inductive Invocation : Type :=
| RunFileStore (i : FileStoreBlock.Input) (graph_exec_id : string)
| RunStoreValue (i : StoreValueBlock.Input)
| RunPrintToConsole (i : PrintToConsoleBlock.Input)
| RunFindInDictionary (i : FindInDictionaryBlock.Input)
| RunAddToDictionary (i : AddToDictionaryBlock.Input)
| RunAddToList (i : AddToListBlock.Input)
| RunFindInList (i : FindInListBlock.Input)
| RunNote (i : NoteBlock.Input)
| RunCreateDictionary (i : CreateDictionaryBlock.Input)
| RunCreateList (i : CreateListBlock.Input)
| RunUniversalTypeConverter (i : UniversalTypeConverterBlock.Input).

Definition block_of (inv : Invocation) : Block :=
  match inv with
  | RunFileStore _ _ => FileStore
  | RunStoreValue _ => StoreValue
  | RunPrintToConsole _ => PrintToConsole
  | RunFindInDictionary _ => FindInDictionary
  | RunAddToDictionary _ => AddToDictionary
  | RunAddToList _ => AddToList
  | RunFindInList _ => FindInList
  | RunNote _ => Note
  | RunCreateDictionary _ => CreateDictionary
  | RunCreateList _ => CreateList
  | RunUniversalTypeConverter _ => UniversalTypeConverter
  end.

(** The field names of each block's [Output] schema. *)
Definition output_schema (b : Block) : list string :=
  match b with
  | FileStore => FileStoreBlock.Output
  | StoreValue => StoreValueBlock.Output
  | PrintToConsole => PrintToConsoleBlock.Output
  | FindInDictionary => FindInDictionaryBlock.Output
  | AddToDictionary => AddToDictionaryBlock.Output
  | AddToList => AddToListBlock.Output
  | FindInList => FindInListBlock.Output
  | Note => NoteBlock.Output
  | CreateDictionary => CreateDictionaryBlock.Output
  | CreateList => CreateListBlock.Output
  | UniversalTypeConverter => UniversalTypeConverterBlock.Output
  end.

Definition execute (h : Host) (inv : Invocation) : gen unit :=
  match inv with
  | RunFileStore i graph_exec_id =>
      FileStoreBlock.run (store_media_file h) i graph_exec_id
  | RunStoreValue i => StoreValueBlock.run i
  | RunPrintToConsole i => PrintToConsoleBlock.run i
  | RunFindInDictionary i =>
      FindInDictionaryBlock.run (json_loads h) (builtin_attr h) i
  | RunAddToDictionary i => AddToDictionaryBlock.run i
  | RunAddToList i => AddToListBlock.run i
  | RunFindInList i => FindInListBlock.run i
  | RunNote i => NoteBlock.run i
  | RunCreateDictionary i => CreateDictionaryBlock.run i
  | RunCreateList i => CreateListBlock.run i
  | RunUniversalTypeConverter i => UniversalTypeConverterBlock.run (convert h) i
  end.

(** A field name is declared by a schema. *)
Definition declared (schema : list string) (field : string) : bool :=
  existsb (String.eqb field) schema.

(** ** Containers as shared, mutable objects

    The merge and insertion routines copy their containers before changing
    them.  To speak of that, the containers live in a store and the routines
    hold references: [.copy()], a slice and [+] allocate a new object, while
    [d[k] = v], [.append] and [+=] change an object in place. *)

Module Store.

Definition ref : Type := positive.

Inductive container : Type :=
| CList (l : list Any)
| CDict (d : dict).

Record state : Type :=
  { heap : gmap ref container;
    emitted : list (string * ref) }.

(** A step of a routine; [None] when a reference does not hold a container of
    the kind the operation needs, which a validated input excludes. *)
Definition M (A : Type) : Type := state -> option (A * state).

#[global] Instance M_ret : MRet M := fun _ a s => Some (a, s).
#[global] Instance M_bind : MBind M := fun _ _ f m s =>
  match m s with
  | Some (a, s') => f a s'
  | None => None
  end.

Definition alloc (c : container) : M ref := fun s =>
  let r := fresh (dom (heap s)) in
  Some (r, {| heap := <[r := c]> (heap s); emitted := emitted s |}).

Definition read_list (r : ref) : M (list Any) := fun s =>
  match heap s !! r with
  | Some (CList l) => Some (l, s)
  | _ => None
  end.

Definition read_dict (r : ref) : M dict := fun s =>
  match heap s !! r with
  | Some (CDict d) => Some (d, s)
  | _ => None
  end.

Definition write (r : ref) (c : container) : M unit := fun s =>
  Some (tt, {| heap := <[r := c]> (heap s); emitted := emitted s |}).

Definition yield_ref (field : string) (r : ref) : M unit := fun s =>
  Some (tt, {| heap := heap s; emitted := emitted s ++ [(field, r)] |}).

(** [r.copy()] *)
Definition list_copy (r : ref) : M ref := l ← read_list r; alloc (CList l).
Definition dict_copy (r : ref) : M ref := d ← read_dict r; alloc (CDict d).

(** [r.append(v)] *)
Definition list_append (r : ref) (v : Any) : M unit :=
  l ← read_list r; write r (CList (l ++ [v])).

(** [r[lo:hi]] *)
Definition list_slice (r : ref) (lo hi : option Z) : M ref :=
  l ← read_list r; alloc (CList (py_slice lo hi l)).

(** [r1 + r2] *)
Definition list_add (r1 r2 : ref) : M ref :=
  l1 ← read_list r1; l2 ← read_list r2; alloc (CList (l1 ++ l2)).

(** [r1 += r2] *)
Definition list_iadd (r1 r2 : ref) : M unit :=
  l1 ← read_list r1; l2 ← read_list r2; write r1 (CList (l1 ++ l2)).

(** [r[k] = v] *)
Definition dict_setitem (r : ref) (k : dict_key) (v : Any) : M unit :=
  d ← read_dict r; write r (CDict (dict_set k v d)).

(** [for x in xs: body x] *)
Fixpoint for_each {A : Type} (xs : list A) (body : A -> M unit) : M unit :=
  match xs with
  | [] => mret tt
  | x :: rest => body x;; for_each rest body
  end.

(** Every object of [s] is the same in [s']. *)
Definition preserved (s s' : state) : Prop :=
  ∀ r, r ∈ dom (heap s) → heap s' !! r = heap s !! r.

Module AddToDictionaryBlock.
Record Input : Type :=
  { dictionary : ref; key : string; value : Any; entries : ref }.

Definition run (input_data : Input) : M unit :=
  updated_dict ← dict_copy (dictionary input_data);
  (if (is_not_None (value input_data)
       && negb (String.eqb (key input_data) ""))%bool
   then dict_setitem updated_dict (KStr (key input_data)) (value input_data)
   else mret tt);;
  items ← read_dict (entries input_data);
  for_each items (fun kv => dict_setitem updated_dict (fst kv) (snd kv));;
  yield_ref "updated_dictionary" updated_dict.
End AddToDictionaryBlock.

Module AddToListBlock.
Record Input : Type :=
  { list : ref; entry : Any; entries : ref; position : option Z }.

Definition run (input_data : Input) : M unit :=
  entries_added ← list_copy (entries input_data);
  (if truthy (entry input_data)
   then list_append entries_added (entry input_data)
   else mret tt);;
  updated_list ← list_copy (list input_data);
  updated_list ← match position input_data with
                 | Some pos =>
                     before ← list_slice updated_list None (Some pos);
                     middle ← list_add before entries_added;
                     after ← list_slice updated_list (Some pos) None;
                     list_add middle after
                 | None =>
                     list_iadd updated_list entries_added;;
                     mret updated_list
                 end;
  yield_ref "updated_list" updated_list.
End AddToListBlock.

End Store.

(** ** The lookup policy as the specification words it

    Section 4.5: parse a textual JSON document first, then the first of four
    cases that applies decides the [output]; with none, [missing] carries the
    original input. *)

Module LookupSpec.
Section Policy.
Variable json_loads : string -> res Any.
Variable builtin_attr : Any -> string -> option Any.

Definition parsed (input : Any) : Any :=
  match input with
  | VStr s => match json_loads s with inr doc => doc | inl _ => input end
  | _ => input
  end.

(** The value of [key] in an element that is a mapping containing it. *)
Definition element_value (key : dict_key) (element : Any) : option Any :=
  match element with
  | VDict d => dict_get key d
  | _ => None
  end.

(** 1. a mapping and [key] is a present key *)
Definition mapping_case (obj : Any) (key : dict_key) : option Any :=
  element_value key obj.

(** 2. a sequence and [key] is an integer within bounds *)
Definition position_case (obj : Any) (key : dict_key) : option Any :=
  match obj, key with
  | VList l, KInt i => if decide (0 ≤ i)%Z then l !! Z.to_nat i else None
  | _, _ => None
  end.

(** 3. a sequence and [key] is text *)
Definition projection_case (obj : Any) (key : dict_key) : option Any :=
  match obj, key with
  | VList l, KStr k =>
      match head l with
      | None => Some (VList [])
      | Some first =>
          match element_value key first with
          | Some _ => Some (VList (omap (element_value key) l))
          | None => Some (VList (omap (fun e => py_getattr builtin_attr e k) l))
          end
      end
  | _, _ => None
  end.

(** 4. an object exposing an attribute named [key] *)
Definition attribute_case (obj : Any) (key : dict_key) : option Any :=
  match key with
  | KStr k => py_getattr builtin_attr obj k
  | KInt _ => None
  end.

Definition first_match (cases : list (Any -> dict_key -> option Any))
    (obj : Any) (key : dict_key) : option Any :=
  head (omap (fun c => c obj key) cases).

Definition lookup (input : Any) (key : dict_key) : event :=
  match first_match
          [mapping_case; position_case; projection_case; attribute_case]
          (parsed input) key with
  | Some v => ("output", v)
  | None => ("missing", input)
  end.

End Policy.
End LookupSpec.

(** The lookup block follows the policy on every input. *)
Definition follows_lookup_policy (json_loads : string -> res Any)
    (builtin_attr : Any -> string -> option Any) : Prop :=
  ∀ input_data : FindInDictionaryBlock.Input,
    FindInDictionaryBlock.run json_loads builtin_attr input_data
    = ([LookupSpec.lookup json_loads builtin_attr
          (FindInDictionaryBlock.input input_data)
          (FindInDictionaryBlock.key input_data)], inr tt).

(** ** Batches and chunks as the specification words them *)

(** Section 4.7: a copy of [entries] with [entry] appended if it is non-null. *)
Definition combined_batch (entries : list Any) (entry : Any) : list Any :=
  if is_not_None entry then entries ++ [entry] else entries.

(** ** Stand-ins for the collaborators, for the worked examples *)

Module Fixtures.

(** A JSON loader that knows three documents and rejects the rest. *)
Definition json_loads (s : string) : res Any :=
  if String.eqb s "null" then inr VNone
  else if String.eqb s "[]" then inr (VList [])
  else if String.eqb s "{}" then inr (VDict [])
  else inl (Exn JSONDecodeError None).

(** No attribute besides the instance attributes. *)
Definition builtin_attr (v : Any) (name : string) : option Any := None.

(** A converter that accepts values already of the target shape, takes the
    truth value for [bool], and fails otherwise. *)
Definition convert (v : Any) (t : py_type) : res Any :=
  match t, v with
  | Tbool, _ => inr (VBool (truthy v))
  | Tstr, VStr _ => inr v
  | Tlist, VList _ => inr v
  | Tdict, VDict _ => inr v
  | _, _ => inl (Exn CollaboratorError (Some "unsupported conversion"))
  end.

Definition store_media_file (graph_exec_id file : string) (return_content : bool)
  : res Any := inr (VStr file).

Definition host : Host :=
  Build_Host store_media_file json_loads builtin_attr convert.

End Fixtures.

(** ** Readings of emitted streams and of sequence elements *)

(** The values of the [list] events of a stream, joined in order. *)
Definition joined_lists (es : list event) : list Any :=
  flat_map (fun e => match e with
                     | (f, VList c) => if String.eqb f "list" then c else []
                     | _ => []
                     end) es.

(** An element over which the key comprehension of the lookup block passes
    without raising: a mapping, or a text or a sequence in which the key does
    not occur. *)
Definition passes_key_test (key : string) (item : Any) : bool :=
  match item with
  | VDict _ => true
  | VStr t => negb (substring key t)
  | VList l => negb (existsb (fun x => py_eq x (VStr key)) l)
  | _ => false
  end.

(** The key comprehension of the lookup block, when the chain reaches it
    ([obj] is a sequence, the key is textual and the first element is a
    mapping containing it), passes over every later element; true when the
    chain does not reach the comprehension. *)
Definition projection_passes (obj : Any) (key : dict_key) : bool :=
  match obj, key with
  | VList (VDict d :: rest), KStr k =>
      if dict_has key d then forallb (passes_key_test k) rest else true
  | _, _ => true
  end.

(** The values Python can build: in every mapping, at any depth of lists and
    mappings, the keys are distinct. *)
Fixpoint well_formed (v : Any) : Prop :=
  match v with
  | VList l =>
      (fix all (l : list Any) : Prop :=
         match l with
         | [] => True
         | x :: l' => well_formed x ∧ all l'
         end) l
  | VDict d =>
      NoDup d.*1
      ∧ (fix all (d : dict) : Prop :=
           match d with
           | [] => True
           | (_, x) :: d' => well_formed x ∧ all d'
           end) d
  | _ => True
  end.

(** * Properties *)

(** ** Values and containers *)

Lemma key_eqb_eq (a b : dict_key) : key_eqb a b = true ↔ a = b.
Proof.
  destruct a as [s|x], b as [t|y]; simpl; split; intros H;
    try discriminate; try (inversion H; subst).
  - apply String.eqb_eq in H. by subst.
  - apply String.eqb_refl.
  - apply Z.eqb_eq in H. by subst.
  - apply Z.eqb_refl.
Qed.

Lemma key_eqb_refl (a : dict_key) : key_eqb a a = true.
Proof. by apply key_eqb_eq. Qed.

Lemma key_eqb_neq (a b : dict_key) : key_eqb a b = false ↔ a ≠ b.
Proof.
  rewrite <- key_eqb_eq. destruct (key_eqb a b); split; congruence.
Qed.

Lemma dict_get_set {V : Type} (k k' : dict_key) (v : V) (d : list (dict_key * V)) :
  dict_get k (dict_set k' v d) = if key_eqb k k' then Some v else dict_get k d.
Proof.
  induction d as [|[k0 v0] d IH]; simpl.
  - reflexivity.
  - destruct (key_eqb k' k0) eqn:E0; simpl.
    + apply key_eqb_eq in E0. subst k0.
      destruct (key_eqb k k'); reflexivity.
    + rewrite IH. destruct (key_eqb k k0) eqn:E1; [|reflexivity].
      apply key_eqb_eq in E1. subst k0.
      destruct (key_eqb k k') eqn:E2; [|reflexivity].
      apply key_eqb_eq in E2. subst k'. by rewrite key_eqb_refl in E0.
Qed.

Lemma dict_get_None {V : Type} (k : dict_key) (d : list (dict_key * V)) :
  k ∉ d.*1 → dict_get k d = None.
Proof.
  induction d as [|[k0 v0] d IH]; simpl; intros Hk; [reflexivity|].
  apply not_elem_of_cons in Hk as [Hne Hk].
  destruct (key_eqb k k0) eqn:E; [by apply key_eqb_eq in E|auto].
Qed.

(** Applying a batch of pairs: the batch decides its own keys, the rest is
    kept. *)
Lemma dict_get_update (k : dict_key) (es d : dict) :
  NoDup es.*1 →
  dict_get k (foldl (fun d kv => dict_set (fst kv) (snd kv) d) d es)
  = match dict_get k es with
    | Some v => Some v
    | None => dict_get k d
    end.
Proof.
  revert d. induction es as [|[k1 v1] es IH]; intros d Hnd; simpl.
  - reflexivity.
  - apply NoDup_cons in Hnd as [Hk1 Hnd]. simpl in Hk1.
    rewrite (IH _ Hnd), dict_get_set.
    destruct (key_eqb k k1) eqn:E.
    + apply key_eqb_eq in E. subst k1. by rewrite (dict_get_None _ _ Hk1).
    + reflexivity.
Qed.

(** [hasattr] is the test that [getattr] succeeds, so the comprehension
    [[getattr(val, key) for val in obj if hasattr(val, key)]] is the list of
    the attributes that exist. *)
Lemma attrs_with_key_filter (builtin_attr : Any → string → option Any)
    (key : string) (obj : list Any) :
  FindInDictionaryBlock.attrs_with_key builtin_attr key obj
  = omap (fun val => py_getattr builtin_attr val key)
      (filter (fun val => hasattr builtin_attr val key = true) obj).
Proof.
  unfold FindInDictionaryBlock.attrs_with_key.
  induction obj as [|val obj IH]; [reflexivity|].
  rewrite filter_cons.
  destruct (decide (hasattr builtin_attr val key = true)) as [Hh|Hh];
    unfold hasattr in Hh;
    destruct (py_getattr builtin_attr val key) as [v|] eqn:Hv;
    try done; simpl; rewrite Hv.
  - f_equal. exact IH.
  - exact IH.
Qed.

(** Slices and ranges on small inputs. *)
Example py_slice_negative_bound :
  py_slice (Some (-1)%Z) None [1; 2; 3] = [3]
  ∧ py_slice None (Some (-1)%Z) [1; 2; 3] = [1; 2]
  ∧ py_slice (Some 5%Z) None [1; 2; 3] = []
  ∧ py_slice None (Some (-7)%Z) [1; 2; 3] = [].
Proof. repeat split. Qed.

Example py_range_steps :
  py_range 0 5 2 = inr [0; 2; 4]%Z
  ∧ py_range 0 7 3 = inr [0; 3; 6]%Z
  ∧ py_range 5 0 (-2) = inr [5; 3; 1]%Z
  ∧ py_range 0 5 (-1) = inr []
  ∧ py_range 0 0 0 = inl (Exn ValueError (Some "range() arg 3 must not be zero")).
Proof. repeat split. Qed.

Example substring_cases :
  substring "k1" "abck1" = true ∧ substring "" "" = true
  ∧ substring "abc" "ab" = false.
Proof. repeat split. Qed.

(** ** Conformance fixtures of the source

    Each block's [test_input] run through the routine gives its
    [test_output]. *)

Section ConformanceFixtures.
Variable json_loads : string -> res Any.
Variable builtin_attr : Any -> string -> option Any.

Let emits (g : gen unit) (es : list event) : Prop := g = (es, inr tt).

Example store_value_fixture_trigger :
  emits (StoreValueBlock.run
           {| StoreValueBlock.input := VStr "Hello, World!";
              StoreValueBlock.data := VNone |})
        [("output", VStr "Hello, World!")].
Proof. reflexivity. Qed.

Example store_value_fixture_data :
  emits (StoreValueBlock.run
           {| StoreValueBlock.input := VStr "Hello, World!";
              StoreValueBlock.data := VStr "Existing Data" |})
        [("output", VStr "Existing Data")].
Proof. reflexivity. Qed.

Example print_to_console_fixture :
  emits (PrintToConsoleBlock.run {| PrintToConsoleBlock.text := VStr "Hello, World!" |})
        [("output", VStr "Hello, World!"); ("status", VStr "printed")].
Proof. reflexivity. Qed.

Let find (input : Any) (key : dict_key) : gen unit :=
  FindInDictionaryBlock.run json_loads builtin_attr
    {| FindInDictionaryBlock.input := input; FindInDictionaryBlock.key := key |}.

Let fruit : Any :=
  VDict [(KStr "apple", VInt 1); (KStr "banana", VInt 2); (KStr "cherry", VInt 3)].
Let xyz : Any :=
  VDict [(KStr "x", VInt 10); (KStr "y", VInt 20); (KStr "z", VInt 30)].
Let one_two_three : Any := VList [VInt 1; VInt 2; VInt 3].

Example find_in_dictionary_fixture_present :
  emits (find fruit (KStr "banana")) [("output", VInt 2)].
Proof. reflexivity. Qed.

Example find_in_dictionary_fixture_list_index :
  emits (find one_two_three (KInt 1)) [("output", VInt 2)].
Proof. reflexivity. Qed.

Example find_in_dictionary_fixture_list_out_of_range :
  emits (find one_two_three (KInt 3)) [("missing", one_two_three)].
Proof. reflexivity. Qed.

Example find_in_dictionary_fixture_object :
  emits (find (VObj 1 [("value", VStr "!!"); ("key", VStr "key")]) (KStr "key"))
        [("output", VStr "key")].
Proof. reflexivity. Qed.

Example find_in_dictionary_fixture_projection :
  emits (find (VList [VDict [(KStr "k1", VStr "v1")];
                      VDict [(KStr "k2", VStr "v2")];
                      VDict [(KStr "k1", VStr "v3")]]) (KStr "k1"))
        [("output", VList [VStr "v1"; VStr "v3"])].
Proof. reflexivity. Qed.

Example add_to_dictionary_fixture_pair :
  emits (AddToDictionaryBlock.run
           {| AddToDictionaryBlock.dictionary := [(KStr "existing_key", VStr "existing_value")];
              AddToDictionaryBlock.key := "new_key";
              AddToDictionaryBlock.value := VStr "new_value";
              AddToDictionaryBlock.entries := [] |})
        [("updated_dictionary",
          VDict [(KStr "existing_key", VStr "existing_value");
                 (KStr "new_key", VStr "new_value")])].
Proof. reflexivity. Qed.

Example add_to_dictionary_fixture_entries :
  emits (AddToDictionaryBlock.run
           {| AddToDictionaryBlock.dictionary := [(KStr "existing_key", VStr "existing_value")];
              AddToDictionaryBlock.key := "";
              AddToDictionaryBlock.value := VNone;
              AddToDictionaryBlock.entries :=
                [(KStr "new_key", VStr "new_value");
                 (KStr "first_key", VStr "first_value")] |})
        [("updated_dictionary",
          VDict [(KStr "existing_key", VStr "existing_value");
                 (KStr "new_key", VStr "new_value");
                 (KStr "first_key", VStr "first_value")])].
Proof. reflexivity. Qed.

Example add_to_list_fixture_position :
  emits (AddToListBlock.run
           {| AddToListBlock.list :=
                [VInt 1; VStr "string";
                 VDict [(KStr "existing_key", VStr "existing_value")]];
              AddToListBlock.entry := VDict [(KStr "new_key", VStr "new_value")];
              AddToListBlock.entries := [];
              AddToListBlock.position := Some 1%Z |})
        [("updated_list",
          VList [VInt 1; VDict [(KStr "new_key", VStr "new_value")];
                 VStr "string";
                 VDict [(KStr "existing_key", VStr "existing_value")]])].
Proof. reflexivity. Qed.

Example add_to_list_fixture_append :
  emits (AddToListBlock.run
           {| AddToListBlock.list := [VStr "a"; VStr "b"; VStr "c"];
              AddToListBlock.entry := VStr "d";
              AddToListBlock.entries := [];
              AddToListBlock.position := None |})
        [("updated_list", VList [VStr "a"; VStr "b"; VStr "c"; VStr "d"])].
Proof. reflexivity. Qed.

Example add_to_list_fixture_batch :
  emits (AddToListBlock.run
           {| AddToListBlock.list := [VStr "a"; VStr "b"];
              AddToListBlock.entry := VStr "e";
              AddToListBlock.entries := [VStr "f"; VStr "g"];
              AddToListBlock.position := Some 1%Z |})
        [("updated_list", VList [VStr "a"; VStr "f"; VStr "g"; VStr "e"; VStr "b"])].
Proof. reflexivity. Qed.

Let one_to_five : list Any := [VInt 1; VInt 2; VInt 3; VInt 4; VInt 5].

Example find_in_list_fixture_found :
  emits (FindInListBlock.run
           {| FindInListBlock.list := one_to_five; FindInListBlock.value := VInt 3 |})
        [("index", VInt 2); ("found", VBool true)].
Proof. reflexivity. Qed.

Example find_in_list_fixture_not_found :
  emits (FindInListBlock.run
           {| FindInListBlock.list := one_to_five; FindInListBlock.value := VInt 6 |})
        [("found", VBool false); ("not_found_value", VInt 6)].
Proof. reflexivity. Qed.

Example create_list_fixture :
  emits (CreateListBlock.run
           {| CreateListBlock.values := [VStr "Alice"; VInt 25; VBool true];
              CreateListBlock.max_size := None |})
        [("list", VList [VStr "Alice"; VInt 25; VBool true])].
Proof. reflexivity. Qed.

Example create_list_chunks :
  emits (CreateListBlock.run
           {| CreateListBlock.values := one_to_five;
              CreateListBlock.max_size := Some 2%Z |})
        [("list", VList [VInt 1; VInt 2]); ("list", VList [VInt 3; VInt 4]);
         ("list", VList [VInt 5])].
Proof. reflexivity. Qed.

End ConformanceFixtures.

(** ** Forward/store value *)

(** What the routine emits: [data] when it is true in the sense of truth
    value testing, [input] otherwise. *)
Lemma store_value_run (input_data : StoreValueBlock.Input) :
  StoreValueBlock.run input_data
  = ([("output",
       if truthy (StoreValueBlock.data input_data)
       then StoreValueBlock.data input_data
       else StoreValueBlock.input input_data)], inr tt).
Proof. reflexivity. Qed.

(** C3 (divergence).  With [data = 0], which is present and not [None], the
    routine emits one [output] event whose value is [input] and not [data]:
    every false value (0, [False], the empty text, list or dict) is passed
    over, although the field's description keeps [input] for the case where
    [data] is [None]. *)
Theorem store_value_false_data_passed_over :
  let input_data :=
    {| StoreValueBlock.input := VStr "Hello, World!";
       StoreValueBlock.data := VInt 0 |} in
  is_not_None (StoreValueBlock.data input_data) = true
  ∧ StoreValueBlock.run input_data = ([("output", VStr "Hello, World!")], inr tt)
  ∧ VStr "Hello, World!" ≠ StoreValueBlock.data input_data.
Proof. repeat split. discriminate. Qed.

(** ** List insertion *)

(** What the routine emits, for every input: the batch holds [entry] when it
    is true in the sense of truth value testing. *)
Lemma add_to_list_run (input_data : AddToListBlock.Input) :
  let l := AddToListBlock.list input_data in
  let batch :=
    if truthy (AddToListBlock.entry input_data)
    then AddToListBlock.entries input_data ++ [AddToListBlock.entry input_data]
    else AddToListBlock.entries input_data in
  AddToListBlock.run input_data
  = ([("updated_list",
       VList match AddToListBlock.position input_data with
             | Some pos =>
                 py_slice None (Some pos) l ++ batch ++ py_slice (Some pos) None l
             | None => l ++ batch
             end)], inr tt).
Proof. reflexivity. Qed.

(** The two slices around a position split the list. *)
Lemma py_slice_split {A : Type} (pos : Z) (l : list A) :
  py_slice None (Some pos) l ++ py_slice (Some pos) None l = l.
Proof.
  unfold py_slice. set (a := slice_bound (length l) pos).
  replace (a - 0) with a by lia.
  assert (a ≤ length l) by (unfold a, slice_bound; lia).
  rewrite drop_0, (take_ge (drop a l)) by (rewrite length_drop; lia).
  apply take_drop.
Qed.

(** An in-range position is the index at which the batch starts. *)
Lemma py_slice_prefix {A : Type} (pos : Z) (l : list A) :
  (0 ≤ pos ≤ Z.of_nat (length l))%Z →
  py_slice None (Some pos) l = take (Z.to_nat pos) l
  ∧ py_slice (Some pos) None l = drop (Z.to_nat pos) l.
Proof.
  intros Hpos. unfold py_slice, slice_bound.
  destruct (Z.ltb_spec pos 0); [lia|].
  replace (Nat.min (length l) (Z.to_nat pos)) with (Z.to_nat pos) by lia.
  rewrite drop_0. split.
  - f_equal. lia.
  - apply take_ge. rewrite length_drop. lia.
Qed.

(** Whenever [entry] is [None] or true, the routine splices the combined
    batch of the specification. *)
Lemma add_to_list_splices_batch (input_data : AddToListBlock.Input) :
  truthy (AddToListBlock.entry input_data)
  = is_not_None (AddToListBlock.entry input_data) →
  let l := AddToListBlock.list input_data in
  let batch :=
    combined_batch (AddToListBlock.entries input_data)
      (AddToListBlock.entry input_data) in
  AddToListBlock.run input_data
  = ([("updated_list",
       VList match AddToListBlock.position input_data with
             | Some pos =>
                 py_slice None (Some pos) l ++ batch ++ py_slice (Some pos) None l
             | None => l ++ batch
             end)], inr tt).
Proof.
  intros Heq. rewrite add_to_list_run. unfold combined_batch.
  by rewrite Heq.
Qed.

(** C4 (divergence).  With [entry = 0], which is not [None], the batch of the
    specification is [entries] followed by [0], but the routine leaves the
    entry out and emits the list without it. *)
Theorem add_to_list_false_entry_dropped :
  let input_data :=
    {| AddToListBlock.list := [VStr "a"; VStr "b"];
       AddToListBlock.entry := VInt 0;
       AddToListBlock.entries := [];
       AddToListBlock.position := None |} in
  combined_batch (AddToListBlock.entries input_data)
    (AddToListBlock.entry input_data) = [VInt 0]
  ∧ AddToListBlock.run input_data
    = ([("updated_list", VList [VStr "a"; VStr "b"])], inr tt).
Proof. split; reflexivity. Qed.

(** ** List creation *)

(** C5 (divergence).  With the empty list and no [max_size], the chunk
    length falls back to [len(values) = 0], [range] refuses the zero step,
    and the routine reports that on [error]: no [list] event is emitted. *)
Theorem create_list_empty_values_error :
  CreateListBlock.run
    {| CreateListBlock.values := []; CreateListBlock.max_size := None |}
  = ([("error", VStr "Failed to create list: range() arg 3 must not be zero")],
     inr tt).
Proof. reflexivity. Qed.

(** ** Dictionary merge *)

(** C6.  The routine emits exactly one [updated_dictionary] event and raises
    nothing.  In the emitted dictionary a key of [entries] has the value
    [entries] gives it; any other key equal to a non-empty [key] has [value]
    when [value] is not [None]; every remaining key is as in [dictionary]. *)
Theorem add_to_dictionary_last_write_wins (input_data : AddToDictionaryBlock.Input) :
  NoDup (AddToDictionaryBlock.entries input_data).*1 →
  ∃ updated : dict,
    AddToDictionaryBlock.run input_data
    = ([("updated_dictionary", VDict updated)], inr tt)
    ∧ ∀ k : dict_key,
        dict_get k updated
        = match dict_get k (AddToDictionaryBlock.entries input_data) with
          | Some v => Some v
          | None =>
              if (is_not_None (AddToDictionaryBlock.value input_data)
                  && negb (String.eqb (AddToDictionaryBlock.key input_data) "")
                  && key_eqb k (KStr (AddToDictionaryBlock.key input_data)))%bool
              then Some (AddToDictionaryBlock.value input_data)
              else dict_get k (AddToDictionaryBlock.dictionary input_data)
          end.
Proof.
  intros Hnd. eexists. split; [reflexivity|].
  intros k. rewrite (dict_get_update _ _ _ Hnd).
  destruct (dict_get k _); [reflexivity|].
  destruct (is_not_None _ && negb _)%bool; simpl; [|reflexivity].
  apply dict_get_set.
Qed.

Lemma add_to_dictionary_last_write_wins_witness :
  let input_data :=
    {| AddToDictionaryBlock.dictionary :=
         [(KStr "a", VInt 1); (KStr "b", VInt 2)];
       AddToDictionaryBlock.key := "b";
       AddToDictionaryBlock.value := VInt 20;
       AddToDictionaryBlock.entries :=
         [(KStr "b", VInt 200); (KStr "c", VInt 3)] |} in
  NoDup (AddToDictionaryBlock.entries input_data).*1
  ∧ ∃ updated : dict,
      AddToDictionaryBlock.run input_data
      = ([("updated_dictionary", VDict updated)], inr tt)
      ∧ ∀ k : dict_key,
          dict_get k updated
          = match dict_get k (AddToDictionaryBlock.entries input_data) with
            | Some v => Some v
            | None =>
                if (is_not_None (AddToDictionaryBlock.value input_data)
                    && negb (String.eqb (AddToDictionaryBlock.key input_data) "")
                    && key_eqb k (KStr (AddToDictionaryBlock.key input_data)))%bool
                then Some (AddToDictionaryBlock.value input_data)
                else dict_get k (AddToDictionaryBlock.dictionary input_data)
            end.
Proof.
  intros input_data.
  assert (Hnd : NoDup (AddToDictionaryBlock.entries input_data).*1).
  { apply (bool_decide_unpack _). reflexivity. }
  split; [exact Hnd|].
  exact (add_to_dictionary_last_write_wins input_data Hnd).
Defined.

(** The merged dictionary of the witness: the batch value of ["b"] replaces
    the one of the single pair. *)
Example add_to_dictionary_batch_after_pair :
  AddToDictionaryBlock.run
    {| AddToDictionaryBlock.dictionary :=
         [(KStr "a", VInt 1); (KStr "b", VInt 2)];
       AddToDictionaryBlock.key := "b";
       AddToDictionaryBlock.value := VInt 20;
       AddToDictionaryBlock.entries :=
         [(KStr "b", VInt 200); (KStr "c", VInt 3)] |}
  = ([("updated_dictionary",
       VDict [(KStr "a", VInt 1); (KStr "b", VInt 200); (KStr "c", VInt 3)])],
     inr tt).
Proof. reflexivity. Qed.

(** ** List search *)

Lemma list_index_Some (v : Any) (l : list Any) (i : nat) :
  list_index v l = Some i →
  (∃ x, l !! i = Some x ∧ py_eq x v = true)
  ∧ ∀ j y, j < i → l !! j = Some y → py_eq y v = false.
Proof.
  revert i. induction l as [|x l IH]; simpl; intros i Hi; [discriminate|].
  destruct (py_eq x v) eqn:E.
  - inversion Hi; subst. split; [eauto|]. intros j y Hj. lia.
  - destruct (list_index v l) as [i'|]; [|discriminate].
    inversion Hi; subst. destruct (IH i' eq_refl) as [Hx Hlt].
    split; [exact Hx|]. intros [|j] y Hj Hy; simpl in Hy.
    + by inversion Hy; subst.
    + apply (Hlt j y); [lia|exact Hy].
Qed.

Lemma list_index_None (v : Any) (l : list Any) :
  list_index v l = None ↔ existsb (fun x => py_eq x v) l = false.
Proof.
  induction l as [|x l IH]; simpl; [done|].
  destruct (py_eq x v); simpl; [done|].
  rewrite <- IH. destruct (list_index v l); simpl; split; congruence.
Qed.

(** C8.  The search never lets a failure out.  If some element equals
    [value], it emits [index], carrying the position of the first equal
    element, and then [found = True]; otherwise it emits [found = False] and
    then [not_found_value = value]. *)
Theorem find_in_list_reports (l : list Any) (v : Any) :
  let out :=
    FindInListBlock.run
      {| FindInListBlock.list := l; FindInListBlock.value := v |} in
  raised out = None
  ∧ if existsb (fun x => py_eq x v) l
    then ∃ (i : nat) (x : Any),
        l !! i = Some x ∧ py_eq x v = true
        ∧ (∀ j y, j < i → l !! j = Some y → py_eq y v = false)
        ∧ events out = [("index", VInt (Z.of_nat i)); ("found", VBool true)]
    else events out = [("found", VBool false); ("not_found_value", v)].
Proof.
  unfold FindInListBlock.run, index; simpl.
  destruct (list_index v l) as [i|] eqn:Hi.
  - destruct (list_index_Some _ _ _ Hi) as [[x [Hx Heq]] Hfirst].
    split; [reflexivity|].
    replace (existsb (fun x => py_eq x v) l) with true.
    + exists i, x. repeat split; assumption.
    + symmetry. apply existsb_exists. exists x. split; [|exact Heq].
      apply list_elem_of_In. by eapply list_elem_of_lookup_2.
  - split; [reflexivity|]. apply list_index_None in Hi. by rewrite Hi.
Qed.

(** ** Universal type conversion *)

Section Conversion.
Variable convert : Any -> py_type -> res Any.

(** C9.  The routine never lets an exception out.  When the conversion
    collaborator fails with [e], the only event is [error], carrying
    "Failed to convert value: " followed by [str(e)]; when it returns a
    value, the only event is [value], carrying it. *)
Theorem universal_type_converter_catches
    (input_data : UniversalTypeConverterBlock.Input) :
  let out := UniversalTypeConverterBlock.run convert input_data in
  raised out = None
  ∧ match convert (UniversalTypeConverterBlock.value input_data)
            (UniversalTypeConverterBlock.target
               (UniversalTypeConverterBlock.type input_data)) with
    | inl e =>
        events out = [("error", VStr ("Failed to convert value: " ++ str_exn e))]
    | inr converted => events out = [("value", converted)]
    end.
Proof.
  unfold UniversalTypeConverterBlock.run; simpl.
  destruct (convert _ _) as [e|converted]; split; reflexivity.
Qed.

End Conversion.

(** ** Declared output fields *)

Lemma yield_then {A : Type} (field : string) (v : Any) (k : gen A) :
  (yield field v;; k) = ((field, v) :: k.1, k.2).
Proof. destruct k as [es r]. reflexivity. Qed.

Lemma for_each_fields {A : Type} (field : string) (f : A → Any) (xs : list A) :
  ∃ es, for_each xs (fun x => yield field (f x)) = (es, inr tt)
        ∧ Forall (fun e => e.1 = field) es.
Proof.
  induction xs as [|x xs [es [Hrun Hes]]].
  - exists []. split; [reflexivity|constructor].
  - exists ((field, f x) :: es).
    change (for_each (x :: xs) (fun x => yield field (f x)))
      with (yield field (f x);; for_each xs (fun x => yield field (f x))).
    rewrite yield_then, Hrun.
    split; [reflexivity|]. by constructor.
Qed.

(** C2 (divergence).  When the conversion collaborator fails, the universal
    type converter emits an [error] event, and [error] is not a field of its
    Output schema, which declares [value] only. *)
Theorem universal_type_converter_undeclared_error
    (h : Host) (input_data : UniversalTypeConverterBlock.Input) (e : exn) :
  convert h (UniversalTypeConverterBlock.value input_data)
    (UniversalTypeConverterBlock.target
       (UniversalTypeConverterBlock.type input_data)) = inl e →
  let inv := RunUniversalTypeConverter input_data in
  emitted_fields (execute h inv) = ["error"]
  ∧ output_schema (block_of inv) = ["value"]
  ∧ declared (output_schema (block_of inv)) "error" = false.
Proof.
  intros He. simpl. unfold emitted_fields, UniversalTypeConverterBlock.run.
  rewrite He. repeat split.
Qed.

Lemma universal_type_converter_undeclared_error_witness :
  let input_data :=
    {| UniversalTypeConverterBlock.value := VStr "abc";
       UniversalTypeConverterBlock.type := NUMBER |} in
  let inv := RunUniversalTypeConverter input_data in
  emitted_fields (execute Fixtures.host inv) = ["error"]
  ∧ output_schema (block_of inv) = ["value"]
  ∧ declared (output_schema (block_of inv)) "error" = false.
Proof.
  exact (universal_type_converter_undeclared_error Fixtures.host
           {| UniversalTypeConverterBlock.value := VStr "abc";
              UniversalTypeConverterBlock.type := NUMBER |}
           (Exn CollaboratorError (Some "unsupported conversion")) eq_refl).
Defined.

(** ** Dictionary lookup *)

Lemma gen_ret_bind {A B : Type} (a : A) (f : A → gen B) : (mret a ≫= f) = f a.
Proof. unfold mret, gen_ret, mbind, gen_bind. by destruct (f a). Qed.

Lemma gen_lift_bind {A B : Type} (a : A) (f : A → gen B) :
  (lift (inr a) ≫= f) = f a.
Proof. unfold lift, mbind, gen_bind. by destruct (f a). Qed.

Lemma gen_raise_bind {A B : Type} (e : exn) (f : A → gen B) :
  (lift (inl e) ≫= f) = ([], inl e).
Proof. reflexivity. Qed.

(** The key comprehension: it succeeds exactly when every element passes the
    membership test, and otherwise raises [TypeError]. *)
Lemma items_with_key_passes (k : string) (l : list Any) :
  FindInDictionaryBlock.items_with_key k l
  = if forallb (passes_key_test k) l
    then inr (omap (fun item => match item with
                                | VDict d => dict_get (KStr k) d
                                | _ => None
                                end) l)
    else inl (Exn TypeError None).
Proof.
  induction l as [|item l IH]; [reflexivity|].
  cbn [FindInDictionaryBlock.items_with_key forallb omap list_omap].
  destruct item as [| | |t|l'|d|oid attrs]; try reflexivity.
  - cbn [str_in passes_key_test]. unfold mbind at 1, res_bind.
    destruct (substring k t); [reflexivity|]. cbn [negb andb]. exact IH.
  - cbn [str_in passes_key_test]. unfold mbind at 1, res_bind.
    destruct (existsb _ l'); [reflexivity|]. cbn [negb andb]. exact IH.
  - cbn [str_in passes_key_test andb]. unfold mbind at 1, res_bind, dict_has.
    cbn [str_getitem].
    destruct (dict_get (KStr k) d) as [v|]; [|exact IH].
    unfold mbind at 1, res_bind. rewrite IH.
    by destruct (forallb (passes_key_test k) l).
Qed.

Section Lookup.
Variable json_loads : string -> res Any.
Variable builtin_attr : Any -> string -> option Any.

Let run := FindInDictionaryBlock.run json_loads builtin_attr.
Let resolve := FindInDictionaryBlock.resolve builtin_attr.
Let lookup := LookupSpec.lookup json_loads builtin_attr.

Lemma list_element_position (obj : Any) (key : dict_key) :
  FindInDictionaryBlock.list_element obj key = LookupSpec.position_case obj key.
Proof.
  destruct obj as [| | | |l| |], key as [k|i]; try reflexivity. simpl.
  destruct (Z.leb_spec 0 i), (Z.ltb_spec i (Z.of_nat (length l))); simpl;
    case_decide; try lia; try reflexivity.
  symmetry. apply lookup_ge_None. lia.
Qed.

Lemma resolve_first_match (given obj : Any) (key : dict_key) :
  projection_passes obj key = true →
  resolve given obj key
  = ([match LookupSpec.first_match
             [LookupSpec.mapping_case; LookupSpec.position_case;
              LookupSpec.projection_case builtin_attr;
              LookupSpec.attribute_case builtin_attr] obj key with
      | Some v => ("output", v)
      | None => ("missing", given)
      end], inr tt).
Proof.
  intros Hpass. unfold resolve, FindInDictionaryBlock.resolve.
  rewrite list_element_position.
  unfold LookupSpec.first_match, LookupSpec.mapping_case. simpl.
  change (FindInDictionaryBlock.dict_entry obj key)
    with (LookupSpec.element_value key obj).
  destruct (LookupSpec.element_value key obj) as [v|] eqn:Hcase1; [reflexivity|].
  destruct (LookupSpec.position_case obj key) as [v|] eqn:Hcase2; [reflexivity|].
  destruct obj as [| | | |l|d|oid attrs], key as [k|i]; simpl;
    try reflexivity;
    try (destruct (attr_get k attrs); [reflexivity|]);
    try (by destruct (builtin_attr _ k)).
  destruct l as [|first rest]; [reflexivity|].
  destruct first as [| | | | |d|]; simpl; try reflexivity.
  cbn [projection_passes] in Hpass. unfold dict_has in *.
  destruct (dict_get (KStr k) d) as [v|] eqn:Hfirst; simpl.
  - by rewrite (items_with_key_passes k rest), Hpass.
  - reflexivity.
Qed.

(** Where the comprehension does not pass, [TypeError] leaves the chain
    before any event. *)
Lemma resolve_projection_raises (given obj : Any) (key : dict_key) :
  projection_passes obj key = false →
  resolve given obj key = ([], inl (Exn TypeError None)).
Proof.
  unfold resolve, FindInDictionaryBlock.resolve.
  destruct obj as [| | | |[|[| | | | |d|] rest]| |], key as [k|i];
    try discriminate.
  cbn [projection_passes]. unfold dict_has.
  cbn [FindInDictionaryBlock.dict_entry FindInDictionaryBlock.list_element].
  destruct (dict_get (KStr k) d) as [v|] eqn:Hfirst; [|discriminate].
  intros Hfail. rewrite items_with_key_passes.
  cbn [forallb passes_key_test andb]. by rewrite Hfail.
Qed.

(** The chain emits on [output] or [missing] only, and at most once. *)
Lemma resolve_fields (given obj : Any) (key : dict_key) :
  Forall (fun f => f = "output" ∨ f = "missing")
    (emitted_fields (resolve given obj key))
  ∧ length (events (resolve given obj key)) ≤ 1.
Proof.
  assert (Hyield : ∀ f v, f = "output" ∨ f = "missing" →
    Forall (fun f => f = "output" ∨ f = "missing") (emitted_fields (yield f v))
    ∧ length (events (yield f v)) ≤ 1).
  { intros f v Hf. split; [|simpl; lia].
    unfold emitted_fields; simpl. constructor; [exact Hf|constructor]. }
  unfold resolve, FindInDictionaryBlock.resolve.
  destruct (FindInDictionaryBlock.dict_entry obj key); [by auto|].
  destruct (FindInDictionaryBlock.list_element obj key); [by auto|].
  destruct obj as [| | | |l|d|oid attrs], key as [k|i];
    try (destruct (py_getattr _ _ _); by auto); try by auto.
  destruct l as [|first rest]; [by auto|].
  destruct (match first with VDict d => dict_has (KStr k) d | _ => false end);
    [|by auto].
  destruct (FindInDictionaryBlock.items_with_key k (first :: rest)) as [e|vs].
  - split; [constructor|simpl; lia].
  - rewrite gen_lift_bind. by auto.
Qed.

(** C1 (amended).  A textual input that the JSON collaborator rejects makes
    the routine raise that failure before any event.  On every other input
    on which the key comprehension passes (each element after the first is a
    mapping, or a text or a sequence in which the key does not occur), the
    routine emits exactly the event of the lookup policy: [output] with the
    value of the first case that applies, else [missing] with the input as
    it was given. *)
Theorem find_in_dictionary_follows_policy
    (input_data : FindInDictionaryBlock.Input) :
  projection_passes
    (LookupSpec.parsed json_loads (FindInDictionaryBlock.input input_data))
    (FindInDictionaryBlock.key input_data) = true →
  run input_data
  = match FindInDictionaryBlock.input input_data with
    | VStr s =>
        match json_loads s with
        | inl e => ([], inl e)
        | inr _ =>
            ([lookup (FindInDictionaryBlock.input input_data)
                (FindInDictionaryBlock.key input_data)], inr tt)
        end
    | _ =>
        ([lookup (FindInDictionaryBlock.input input_data)
            (FindInDictionaryBlock.key input_data)], inr tt)
    end.
Proof.
  unfold run, FindInDictionaryBlock.run, lookup, LookupSpec.lookup,
    LookupSpec.parsed.
  cbv zeta. intros Hpass.
  destruct (FindInDictionaryBlock.input input_data) as [| | |s| | |];
    try (rewrite gen_ret_bind; by apply resolve_first_match).
  destruct (json_loads s) as [e|doc]; [reflexivity|].
  rewrite gen_lift_bind. by apply resolve_first_match.
Qed.

(** The two conditions are needed: a run that emitted exactly the event of
    the policy parsed its textual input, and its key comprehension passed. *)
Lemma find_in_dictionary_policy_only_if
    (input_data : FindInDictionaryBlock.Input) :
  run input_data
  = ([lookup (FindInDictionaryBlock.input input_data)
        (FindInDictionaryBlock.key input_data)], inr tt) →
  (∀ s, FindInDictionaryBlock.input input_data = VStr s →
        ∃ doc, json_loads s = inr doc)
  ∧ projection_passes
      (LookupSpec.parsed json_loads (FindInDictionaryBlock.input input_data))
      (FindInDictionaryBlock.key input_data) = true.
Proof.
  unfold run, FindInDictionaryBlock.run, LookupSpec.parsed. cbv zeta.
  intros Hrun.
  destruct (FindInDictionaryBlock.input input_data) as [| | |s| | |] eqn:Hin;
    try (split; [intros s' Hs'; discriminate Hs'|];
         rewrite gen_ret_bind in Hrun;
         match goal with
         | |- ?b = true => destruct b eqn:Hpass; [reflexivity|]
         end;
         rewrite (resolve_projection_raises _ _ _ Hpass) in Hrun;
         discriminate Hrun).
  destruct (json_loads s) as [e|doc] eqn:Hdoc; [discriminate Hrun|].
  split; [intros s' [= <-]; by exists doc|].
  rewrite gen_lift_bind in Hrun.
  destruct (projection_passes doc _) eqn:Hpass; [reflexivity|].
  rewrite (resolve_projection_raises _ _ _ Hpass) in Hrun. discriminate Hrun.
Qed.

(** C10.  When the input is a text that the JSON collaborator rejects with
    [e], the routine emits no event, in particular no [missing], and [e]
    leaves it.  Hence a run that emitted [missing] on a textual input parsed
    that text. *)
Theorem find_in_dictionary_parse_failure_propagates
    (input_data : FindInDictionaryBlock.Input) (s : string) (e : exn) :
  FindInDictionaryBlock.input input_data = VStr s →
  json_loads s = inl e →
  events (run input_data) = []
  ∧ raised (run input_data) = Some e
  ∧ ("missing" ∉ emitted_fields (run input_data))
  ∧ ∀ other : FindInDictionaryBlock.Input,
      "missing" ∈ emitted_fields (run other) →
      ∀ s', FindInDictionaryBlock.input other = VStr s' →
            ∃ doc, json_loads s' = inr doc.
Proof.
  assert (Hfail : ∀ i s0 e0,
    FindInDictionaryBlock.input i = VStr s0 → json_loads s0 = inl e0 →
    run i = ([], inl e0)).
  { intros i s0 e0 Hin He0. unfold run, FindInDictionaryBlock.run. cbv zeta.
    by rewrite Hin, He0. }
  intros Hin He. rewrite (Hfail _ _ _ Hin He).
  repeat split; [apply not_elem_of_nil|].
  intros other Hmissing s' Hs'.
  destruct (json_loads s') as [e'|doc] eqn:Hdoc; [|by exists doc].
  rewrite (Hfail _ _ _ Hs' Hdoc) in Hmissing. by apply not_elem_of_nil in Hmissing.
Qed.

End Lookup.

Lemma find_in_dictionary_follows_policy_witness :
  let run := FindInDictionaryBlock.run Fixtures.json_loads Fixtures.builtin_attr in
  run {| FindInDictionaryBlock.input :=
           VList [VDict [(KStr "k1", VStr "v1")]; VStr "other"; VList [VInt 3];
                  VDict [(KStr "k1", VStr "v3")]];
         FindInDictionaryBlock.key := KStr "k1" |}
  = ([("output", VList [VStr "v1"; VStr "v3"])], inr tt)
  ∧ run {| FindInDictionaryBlock.input := VStr "{}";
           FindInDictionaryBlock.key := KStr "w" |}
    = ([("missing", VStr "{}")], inr tt)
  ∧ run {| FindInDictionaryBlock.input := VStr "{";
           FindInDictionaryBlock.key := KStr "w" |}
    = ([], inl (Exn JSONDecodeError None)).
Proof.
  intros run. split; [|split].
  - exact (find_in_dictionary_follows_policy Fixtures.json_loads
             Fixtures.builtin_attr
             {| FindInDictionaryBlock.input :=
                  VList [VDict [(KStr "k1", VStr "v1")]; VStr "other";
                         VList [VInt 3]; VDict [(KStr "k1", VStr "v3")]];
                FindInDictionaryBlock.key := KStr "k1" |} eq_refl).
  - exact (find_in_dictionary_follows_policy Fixtures.json_loads
             Fixtures.builtin_attr
             {| FindInDictionaryBlock.input := VStr "{}";
                FindInDictionaryBlock.key := KStr "w" |} eq_refl).
  - exact (find_in_dictionary_follows_policy Fixtures.json_loads
             Fixtures.builtin_attr
             {| FindInDictionaryBlock.input := VStr "{";
                FindInDictionaryBlock.key := KStr "w" |} eq_refl).
Defined.

Lemma find_in_dictionary_parse_failure_propagates_witness :
  let input_data :=
    {| FindInDictionaryBlock.input := VStr "{";
       FindInDictionaryBlock.key := KStr "w" |} in
  events (FindInDictionaryBlock.run Fixtures.json_loads Fixtures.builtin_attr
            input_data) = []
  ∧ raised (FindInDictionaryBlock.run Fixtures.json_loads Fixtures.builtin_attr
              input_data) = Some (Exn JSONDecodeError None).
Proof.
  intros input_data.
  destruct (find_in_dictionary_parse_failure_propagates Fixtures.json_loads
              Fixtures.builtin_attr input_data "{" (Exn JSONDecodeError None)
              eq_refl eq_refl) as (Hevents & Hraised & _).
  split; [exact Hevents|exact Hraised].
Defined.

(** A sequence whose first element is a mapping containing the key and whose
    second element is a number: the membership test on the number raises
    [TypeError], which leaves the routine before any event. *)
Lemma find_in_dictionary_mixed_sequence_raises
    (json_loads : string -> res Any)
    (builtin_attr : Any -> string -> option Any) :
  FindInDictionaryBlock.run json_loads builtin_attr
    {| FindInDictionaryBlock.input :=
         VList [VDict [(KStr "k1", VStr "v1")]; VInt 5];
       FindInDictionaryBlock.key := KStr "k1" |}
  = ([], inl (Exn TypeError None)).
Proof. reflexivity. Qed.

(** C1 (counterexample).  The lookup policy is not followed on every input:
    on the sequence [[{"k1": "v1"}, 5]] with key ["k1"] the policy gives
    [output = ["v1"]] while the routine raises, and on the text ["{"], which
    is no JSON document, the policy gives [missing] while the routine lets
    the parse failure out.  The first input refutes the claim whatever the
    JSON collaborator and the attribute table are. *)
Lemma find_in_dictionary_policy_not_followed :
  let mixed :=
    {| FindInDictionaryBlock.input :=
         VList [VDict [(KStr "k1", VStr "v1")]; VInt 5];
       FindInDictionaryBlock.key := KStr "k1" |} in
  let text :=
    {| FindInDictionaryBlock.input := VStr "{";
       FindInDictionaryBlock.key := KStr "w" |} in
  let run := FindInDictionaryBlock.run Fixtures.json_loads Fixtures.builtin_attr in
  let lookup := LookupSpec.lookup Fixtures.json_loads Fixtures.builtin_attr in
  (run mixed = ([], inl (Exn TypeError None))
   ∧ lookup (FindInDictionaryBlock.input mixed) (FindInDictionaryBlock.key mixed)
     = ("output", VList [VStr "v1"]))
  ∧ (run text = ([], inl (Exn JSONDecodeError None))
     ∧ lookup (FindInDictionaryBlock.input text) (FindInDictionaryBlock.key text)
       = ("missing", VStr "{"))
  ∧ ∀ json_loads builtin_attr, ¬ follows_lookup_policy json_loads builtin_attr.
Proof.
  repeat split. intros json_loads builtin_attr Hclaim.
  specialize (Hclaim {| FindInDictionaryBlock.input :=
                          VList [VDict [(KStr "k1", VStr "v1")]; VInt 5];
                        FindInDictionaryBlock.key := KStr "k1" |}).
  discriminate Hclaim.
Qed.

(** ** Copy before mutate *)

Section StoreFacts.

Lemma bind_run {A B : Type} (m : Store.M A) (f : A → Store.M B) (s : Store.state) :
  (m ≫= f) s = match m s with Some (a, s') => f a s' | None => None end.
Proof. reflexivity. Qed.

Lemma read_list_run (r : Store.ref) (l : list Any) (s : Store.state) :
  Store.heap s !! r = Some (Store.CList l) → Store.read_list r s = Some (l, s).
Proof. intros H. unfold Store.read_list. by rewrite H. Qed.


(** A new object gets a reference no object of the store has. *)
Lemma alloc_run (c : Store.container) (s : Store.state) :
  ∃ r, (r ∉ dom (Store.heap s))
       ∧ Store.alloc c s
         = Some (r, {| Store.heap := <[r := c]> (Store.heap s);
                       Store.emitted := Store.emitted s |}).
Proof.
  exists (fresh (dom (Store.heap s))). split; [apply is_fresh|reflexivity].
Qed.




(** A reference taken after an insertion differs from the inserted one and
    is new for the store before it. *)
Lemma fresh_after_insert (h : gmap Store.ref Store.container)
    (r r' : Store.ref) (c : Store.container) :
  r ∉ dom (<[r' := c]> h) → r ≠ r' ∧ r ∉ dom h.
Proof.
  rewrite dom_insert_L, not_elem_of_union, not_elem_of_singleton. tauto.
Qed.

Ltac split_fresh H :=
  repeat match type of H with
         | _ ∉ dom (<[_ := _]> _) =>
             let Hne := fresh "Hne" in
             apply fresh_after_insert in H as [Hne H]
         end.

Ltac step_alloc r H :=
  match goal with
  | |- context [Store.alloc ?c ?st] =>
      destruct (alloc_run c st) as (r & H & ->);
      cbn [Store.heap Store.emitted] in H |- *;
      split_fresh H
  end.

Ltac step_read r l :=
  rewrite (read_list_run r l)
    by (cbn [Store.heap Store.emitted];
        rewrite ?lookup_insert_ne by congruence; apply lookup_insert_eq).

(** The insertion routine on references: the list it emits is a new object
    holding what the value-level routine computes, and every object of the
    store it started from is as it was. *)
Lemma add_to_list_frame (s : Store.state)
    (input_data : Store.AddToListBlock.Input) (l es : list Any) :
  Store.heap s !! Store.AddToListBlock.list input_data = Some (Store.CList l) →
  Store.heap s !! Store.AddToListBlock.entries input_data
    = Some (Store.CList es) →
  ∃ (r : Store.ref) (updated : list Any) (s' : Store.state),
    Store.AddToListBlock.run input_data s = Some (tt, s')
    ∧ (r ∉ dom (Store.heap s))
    ∧ Store.preserved s s'
    ∧ Store.heap s' !! r = Some (Store.CList updated)
    ∧ Store.emitted s' = Store.emitted s ++ [("updated_list", r)]
    ∧ AddToListBlock.run
        {| AddToListBlock.list := l;
           AddToListBlock.entry := Store.AddToListBlock.entry input_data;
           AddToListBlock.entries := es;
           AddToListBlock.position := Store.AddToListBlock.position input_data |}
      = ([("updated_list", VList updated)], inr tt).
Proof.
  intros Hl Hes.
  assert (Hpreserved : ∀ (h : gmap Store.ref Store.container) out,
    (∀ r0, r0 ∈ dom (Store.heap s) → h !! r0 = Store.heap s !! r0) →
    Store.preserved s {| Store.heap := h; Store.emitted := out |}).
  { intros h out Hh r0 Hr0. by apply Hh. }
  unfold Store.AddToListBlock.run, Store.list_copy.
  rewrite !bind_run, (read_list_run _ _ _ Hes).
  step_alloc r1 Hr1. rewrite bind_run.
  set (batch := if truthy (Store.AddToListBlock.entry input_data)
                then es ++ [Store.AddToListBlock.entry input_data] else es).
  assert (Hstep :
    (if truthy (Store.AddToListBlock.entry input_data)
     then Store.list_append r1 (Store.AddToListBlock.entry input_data)
     else mret ())
      {| Store.heap := <[r1 := Store.CList es]> (Store.heap s);
         Store.emitted := Store.emitted s |}
    = Some (tt, {| Store.heap := <[r1 := Store.CList batch]> (Store.heap s);
                   Store.emitted := Store.emitted s |})).
  { unfold batch. destruct (truthy _).
    - unfold Store.list_append.
      rewrite bind_run, (read_list_run _ es); [|apply lookup_insert_eq].
      unfold Store.write; simpl. by rewrite insert_insert_eq.
    - reflexivity. }
  rewrite Hstep. clear Hstep.
  assert (Hne1 : Store.AddToListBlock.list input_data ≠ r1).
  { intros Heq. apply Hr1. rewrite <- Heq. apply elem_of_dom. eauto. }
  rewrite !bind_run, (read_list_run _ l);
    [|by simpl; rewrite lookup_insert_ne].
  step_alloc r2 Hr2.
  destruct (Store.AddToListBlock.position input_data) as [pos|].
  - unfold Store.list_slice, Store.list_add.
    rewrite !bind_run. step_read r2 l.
    step_alloc r3 Hr3. rewrite !bind_run.
    step_read r3 (py_slice None (Some pos) l).
    rewrite bind_run. step_read r1 batch.
    step_alloc r4 Hr4. rewrite !bind_run.
    step_read r2 l.
    step_alloc r5 Hr5. rewrite !bind_run.
    step_read r4 (py_slice None (Some pos) l ++ batch).
    rewrite bind_run. step_read r5 (py_slice (Some pos) None l).
    step_alloc r6 Hr6.
    exists r6. eexists. eexists. split; [reflexivity|].
    split; [exact Hr6|]. split; [|split; [apply lookup_insert_eq|]].
    + apply Hpreserved. intros r0 Hr0. cbn [Store.heap].
      rewrite !lookup_insert_ne; [done|intros ->; contradiction..].
    + split; [reflexivity|]. rewrite add_to_list_run. cbn.
      by rewrite <- app_assoc.
  - unfold Store.list_iadd.
    rewrite !bind_run. step_read r2 l.
    rewrite bind_run. step_read r1 batch.
    unfold Store.write, Store.yield_ref. cbn.
    exists r2. eexists. eexists. split; [reflexivity|].
    split; [exact Hr2|]. split; [|split; [apply lookup_insert_eq|]].
    + apply Hpreserved. intros r0 Hr0. cbn [Store.heap].
      rewrite !lookup_insert_ne; [done|intros ->; contradiction..].
    + split; reflexivity.
Qed.

End StoreFacts.



(** ** Chunked list creation *)

Lemma for_each_yield {A : Type} (field : string) (f : A → Any) (xs : list A) :
  for_each xs (fun x => yield field (f x))
  = (map (fun x => (field, f x)) xs, inr tt).
Proof.
  induction xs as [|x xs IH]; [reflexivity|].
  change (for_each (x :: xs) (fun x => yield field (f x)))
    with (yield field (f x);; for_each xs (fun x => yield field (f x))).
  by rewrite yield_then, IH.
Qed.

(** A slice of [n] elements from index [i * n] on, for any [i]. *)
Lemma py_slice_chunk {A : Type} (l : list A) (i : nat) (n : Z) :
  (0 < n)%Z →
  py_slice (Some (Z.of_nat i * n)%Z) (Some (Z.of_nat i * n + n)%Z) l
  = take (Z.to_nat n) (drop (i * Z.to_nat n) l).
Proof.
  intros Hn. unfold py_slice, slice_bound.
  destruct (Z.ltb_spec (Z.of_nat i * n) 0); [lia|].
  destruct (Z.ltb_spec (Z.of_nat i * n + n) 0); [lia|].
  replace (Z.to_nat (Z.of_nat i * n)) with (i * Z.to_nat n) by lia.
  replace (Z.to_nat (Z.of_nat i * n + n)) with (i * Z.to_nat n + Z.to_nat n)
    by lia.
  set (k := Z.to_nat n). set (a := i * k).
  destruct (Nat.le_gt_cases (length l) a) as [Hle|Hlt].
  - rewrite !Nat.min_l by lia. rewrite Nat.sub_diag.
    rewrite (drop_ge l a) by lia. by rewrite take_nil.
  - rewrite (Nat.min_r _ a) by lia.
    destruct (Nat.le_gt_cases (length l) (a + k)) as [Hle'|Hlt'].
    + rewrite Nat.min_l by lia.
      rewrite !take_ge by (rewrite length_drop; lia). reflexivity.
    + rewrite Nat.min_r by lia. f_equal. lia.
Qed.

Lemma py_range_positive (start stop step : Z) :
  (0 < step)%Z →
  py_range start stop step
  = inr (map (fun i => (start + Z.of_nat i * step)%Z)
           (seq 0 (Z.to_nat ((stop - start + step - 1) / step)))).
Proof.
  intros Hstep. unfold py_range.
  destruct (Z.eqb_spec step 0); [lia|].
  by destruct (Z.ltb_spec 0 step); [|lia].
Qed.

Lemma int_or_nonzero (n len : Z) : n ≠ 0%Z → int_or (Some n) len = n.
Proof. intros Hn. unfold int_or. by destruct (Z.eqb_spec n 0). Qed.

(** With a positive [max_size] the routine emits, in order, one [list] event
    per slice of [max_size] consecutive values, the last one possibly
    shorter: as many as [len(values) / max_size] rounded up. *)
Lemma create_list_streams_chunks (values : list Any) (n : Z) :
  (0 < n)%Z →
  CreateListBlock.run
    {| CreateListBlock.values := values; CreateListBlock.max_size := Some n |}
  = (map (fun i => ("list", VList (take (Z.to_nat n) (drop (i * Z.to_nat n) values))))
       (seq 0 (Z.to_nat ((Z.of_nat (length values) + n - 1) / n))),
     inr tt).
Proof.
  intros Hn. unfold CreateListBlock.run.
  cbn [CreateListBlock.values CreateListBlock.max_size].
  rewrite int_or_nonzero by lia.
  rewrite py_range_positive by done.
  rewrite gen_lift_bind.
  rewrite (for_each_yield "list"
             (fun i => VList (py_slice (Some i) (Some (i + n)%Z) values))).
  unfold try_except. rewrite map_map.
  replace (Z.of_nat (length values) - 0 + n - 1)%Z
    with (Z.of_nat (length values) + n - 1)%Z by lia.
  f_equal. apply map_ext. intros i. cbv beta.
  by rewrite !Z.add_0_l, py_slice_chunk.
Qed.

(** Without [max_size] (or with [max_size = 0]) a non-empty list is emitted
    whole, as a single [list] event. *)
Lemma create_list_whole (values : list Any) (max_size : option Z) :
  values ≠ [] →
  max_size = None ∨ max_size = Some 0%Z →
  CreateListBlock.run
    {| CreateListBlock.values := values; CreateListBlock.max_size := max_size |}
  = ([("list", VList values)], inr tt).
Proof.
  intros Hne Hmax.
  assert (Hlen : (0 < Z.of_nat (length values))%Z).
  { destruct values; [done|simpl; lia]. }
  assert (Hsame :
    CreateListBlock.run
      {| CreateListBlock.values := values; CreateListBlock.max_size := max_size |}
    = CreateListBlock.run
        {| CreateListBlock.values := values;
           CreateListBlock.max_size := Some (Z.of_nat (length values)) |}).
  { unfold CreateListBlock.run, int_or. simpl.
    destruct (Z.eqb_spec (Z.of_nat (length values)) 0); [lia|].
    by destruct Hmax as [-> | ->]. }
  rewrite Hsame, (create_list_streams_chunks _ _ Hlen).
  replace ((Z.of_nat (length values) + Z.of_nat (length values) - 1)
           / Z.of_nat (length values))%Z with 1%Z.
  - simpl. rewrite drop_0, take_ge by lia. reflexivity.
  - apply (Z.div_unique _ _ 1 (Z.of_nat (length values) - 1)); lia.
Qed.

(** ** Declared output fields, block by block *)

(** X23.  Every block emits on fields of its own Output schema, the universal
    type converter as long as the conversion succeeds. *)
Lemma emitted_fields_declared (h : Host) (inv : Invocation) :
  (∀ i, inv = RunUniversalTypeConverter i →
        ∃ v, convert h (UniversalTypeConverterBlock.value i)
               (UniversalTypeConverterBlock.target
                  (UniversalTypeConverterBlock.type i)) = inr v) →
  Forall (fun f => declared (output_schema (block_of inv)) f = true)
    (emitted_fields (execute h inv)).
Proof.
  intros Hconv. destruct inv as [i g|i|i|i|i|i|i|i|i|i|i]; simpl.
  - unfold FileStoreBlock.run.
    destruct (store_media_file h _ _ _); by repeat constructor.
  - by repeat constructor.
  - by repeat constructor.
  - unfold FindInDictionaryBlock.run. cbv zeta.
    assert (Hres : ∀ obj,
      Forall (fun f => declared FindInDictionaryBlock.Output f = true)
        (emitted_fields
           (FindInDictionaryBlock.resolve (builtin_attr h)
              (FindInDictionaryBlock.input i) obj
              (FindInDictionaryBlock.key i)))).
    { intros obj. eapply Forall_impl; [apply resolve_fields|].
      by intros f [-> | ->]. }
    destruct (FindInDictionaryBlock.input i);
      try (rewrite gen_ret_bind; apply Hres).
    destruct (json_loads h s) as [e|doc].
    + constructor.
    + rewrite gen_lift_bind. apply Hres.
  - by repeat constructor.
  - by repeat constructor.
  - unfold FindInListBlock.run, index.
    destruct (list_index _ _); by repeat constructor.
  - by repeat constructor.
  - by repeat constructor.
  - unfold CreateListBlock.run.
    destruct (py_range _ _ _) as [e|idxs].
    + by repeat constructor.
    + rewrite gen_lift_bind, for_each_yield. unfold try_except, emitted_fields.
      simpl. rewrite Forall_fmap, Forall_map. by apply Forall_true.
  - destruct (Hconv i eq_refl) as [v Hv].
    unfold UniversalTypeConverterBlock.run. rewrite Hv. by repeat constructor.
Qed.

(** * Further properties of the blocks *)

(** ** Dictionary merge: keys, order and lookups *)

Lemma dict_has_elem_of {V : Type} (k : dict_key) (d : list (dict_key * V)) :
  dict_has k d = true ↔ k ∈ d.*1.
Proof.
  unfold dict_has. induction d as [|[k0 v0] d IH]; simpl.
  - split; [discriminate|]. intros H. by apply elem_of_nil in H.
  - rewrite elem_of_cons. destruct (key_eqb k k0) eqn:E.
    + apply key_eqb_eq in E. tauto.
    + apply key_eqb_neq in E. rewrite IH. tauto.
Qed.

Lemma dict_has_false {V : Type} (k : dict_key) (d : list (dict_key * V)) :
  dict_has k d = false ↔ k ∉ d.*1.
Proof.
  rewrite <- dict_has_elem_of. destruct (dict_has k d); split; congruence.
Qed.

(** An assignment keeps the keys where they are and puts a new key last. *)
Lemma dict_set_keys {V : Type} (k : dict_key) (v : V) (d : list (dict_key * V)) :
  (dict_set k v d).*1 = if dict_has k d then d.*1 else d.*1 ++ [k].
Proof.
  unfold dict_has. induction d as [|[k0 v0] d IH]; [reflexivity|].
  cbn [dict_set dict_get]. destruct (key_eqb k k0) eqn:E; [reflexivity|].
  rewrite !fmap_cons, IH. by destruct (dict_get k d).
Qed.

Lemma dict_set_NoDup {V : Type} (k : dict_key) (v : V) (d : list (dict_key * V)) :
  NoDup d.*1 → NoDup (dict_set k v d).*1.
Proof.
  intros Hnd. rewrite dict_set_keys. destruct (dict_has k d) eqn:E; [done|].
  apply NoDup_app. split; [done|]. split; [|apply NoDup_singleton].
  intros x Hx Hk. apply list_elem_of_singleton in Hk as ->.
  by apply dict_has_false in E.
Qed.

(** What a batch of assignments does to the keys. *)
Lemma dict_update_keys (es d : dict) :
  ∃ added : list dict_key,
    (foldl (fun d kv => dict_set (fst kv) (snd kv) d) d es).*1 = d.*1 ++ added
    ∧ Forall (fun k => k ∉ d.*1) added.
Proof.
  revert d. induction es as [|[k v] es IH]; intros d; simpl.
  - exists []. by rewrite app_nil_r.
  - destruct (IH (dict_set k v d)) as (added & Hkeys & Hnew).
    rewrite Hkeys, dict_set_keys. rewrite dict_set_keys in Hnew.
    destruct (dict_has k d) eqn:E.
    + by exists added.
    + exists (k :: added). rewrite <- app_assoc. split; [done|].
      constructor; [by apply dict_has_false|].
      eapply Forall_impl; [exact Hnew|]. intros x Hx Hin. apply Hx.
      apply elem_of_app. by left.
Qed.

Lemma dict_update_NoDup (es d : dict) :
  NoDup d.*1 → NoDup (foldl (fun d kv => dict_set (fst kv) (snd kv) d) d es).*1.
Proof.
  revert d. induction es as [|[k v] es IH]; intros d Hnd; simpl; [done|].
  by apply IH, dict_set_NoDup.
Qed.

(** A key that the batch does not name reads as before the batch. *)
Lemma dict_get_update_other (k : dict_key) (es d : dict) :
  dict_get k es = None →
  dict_get k (foldl (fun d kv => dict_set (fst kv) (snd kv) d) d es)
  = dict_get k d.
Proof.
  revert d. induction es as [|[k1 v1] es IH]; intros d Hk; simpl in *; [done|].
  destruct (key_eqb k k1) eqn:E; [discriminate|].
  by rewrite (IH _ Hk), dict_get_set, E.
Qed.

(** The dictionary the merge routine emits, spelled out. *)
Lemma add_to_dictionary_run (input_data : AddToDictionaryBlock.Input) :
  AddToDictionaryBlock.run input_data
  = ([("updated_dictionary",
       VDict (foldl (fun d kv => dict_set (fst kv) (snd kv) d)
                (if (is_not_None (AddToDictionaryBlock.value input_data)
                     && negb (String.eqb (AddToDictionaryBlock.key input_data) ""))%bool
                 then dict_set (KStr (AddToDictionaryBlock.key input_data))
                        (AddToDictionaryBlock.value input_data)
                        (AddToDictionaryBlock.dictionary input_data)
                 else AddToDictionaryBlock.dictionary input_data)
                (AddToDictionaryBlock.entries input_data)))], inr tt).
Proof. reflexivity. Qed.

(** Looking a key up in a mapping that holds it. *)
Lemma find_in_mapping (json_loads : string → res Any)
    (builtin_attr : Any → string → option Any) (d : dict) (k : dict_key) (v : Any) :
  dict_get k d = Some v →
  FindInDictionaryBlock.run json_loads builtin_attr
    {| FindInDictionaryBlock.input := VDict d; FindInDictionaryBlock.key := k |}
  = ([("output", v)], inr tt).
Proof.
  intros Hk. unfold FindInDictionaryBlock.run. cbv zeta.
  cbn [FindInDictionaryBlock.input FindInDictionaryBlock.key].
  rewrite gen_ret_bind.
  unfold FindInDictionaryBlock.resolve, FindInDictionaryBlock.dict_entry.
  by rewrite Hk.
Qed.

(** Two dictionaries with the same keys in the same order and the same
    readings are the same dictionary. *)
Lemma dict_ext (a b : dict) :
  NoDup a.*1 → a.*1 = b.*1 →
  (∀ k, dict_get k a = dict_get k b) → a = b.
Proof.
  revert b. induction a as [|[k v] a IH]; intros [|[k' v'] b] Hnd Hkeys Hget;
    try discriminate Hkeys; [reflexivity|].
  rewrite !fmap_cons in Hkeys. injection Hkeys as <- Hkeys.
  rewrite fmap_cons in Hnd. apply NoDup_cons in Hnd as [Hk Hnd].
  pose proof (Hget k) as Hv. cbn [dict_get] in Hv.
  rewrite key_eqb_refl in Hv. injection Hv as <-.
  f_equal. apply IH; [done..|]. intros k0.
  destruct (key_eqb k0 k) eqn:E.
  - apply key_eqb_eq in E as ->.
    rewrite (dict_get_None k a) by done.
    rewrite (dict_get_None k b); [done|]. by rewrite <- Hkeys.
  - specialize (Hget k0). cbn [dict_get] in Hget. by rewrite E in Hget.
Qed.

Section MergeThenLookup.
Variable json_loads : string → res Any.
Variable builtin_attr : Any → string → option Any.

(** X1.  Insert, then look up: when [value] is not [None], [key] is not
    empty and [entries] does not name [key], the lookup block given the
    emitted dictionary and [key] emits [output = value]. *)
Theorem merge_then_lookup_pair (input_data : AddToDictionaryBlock.Input) :
  is_not_None (AddToDictionaryBlock.value input_data) = true →
  AddToDictionaryBlock.key input_data ≠ "" →
  dict_get (KStr (AddToDictionaryBlock.key input_data))
    (AddToDictionaryBlock.entries input_data) = None →
  ∃ updated : dict,
    AddToDictionaryBlock.run input_data
    = ([("updated_dictionary", VDict updated)], inr tt)
    ∧ FindInDictionaryBlock.run json_loads builtin_attr
        {| FindInDictionaryBlock.input := VDict updated;
           FindInDictionaryBlock.key := KStr (AddToDictionaryBlock.key input_data) |}
      = ([("output", AddToDictionaryBlock.value input_data)], inr tt).
Proof.
  intros Hvalue Hkey Hentries. eexists. split; [apply add_to_dictionary_run|].
  apply find_in_mapping. rewrite (dict_get_update_other _ _ _ Hentries).
  rewrite Hvalue. apply String.eqb_neq in Hkey. rewrite Hkey. simpl.
  by rewrite dict_get_set, key_eqb_refl.
Qed.

(** X2.  Batch, then look up: every key that [entries] names reads, through
    the lookup block on the emitted dictionary, the value [entries] gives
    it, whatever [dictionary], [key] and [value] are. *)
Theorem merge_then_lookup_batch (input_data : AddToDictionaryBlock.Input)
    (k : dict_key) (v : Any) :
  NoDup (AddToDictionaryBlock.entries input_data).*1 →
  dict_get k (AddToDictionaryBlock.entries input_data) = Some v →
  ∃ updated : dict,
    AddToDictionaryBlock.run input_data
    = ([("updated_dictionary", VDict updated)], inr tt)
    ∧ FindInDictionaryBlock.run json_loads builtin_attr
        {| FindInDictionaryBlock.input := VDict updated;
           FindInDictionaryBlock.key := k |}
      = ([("output", v)], inr tt).
Proof.
  intros Hnd Hk. eexists. split; [apply add_to_dictionary_run|].
  apply find_in_mapping. by rewrite (dict_get_update _ _ _ Hnd), Hk.
Qed.

End MergeThenLookup.

Lemma merge_then_lookup_pair_witness :
  let input_data :=
    {| AddToDictionaryBlock.dictionary := [(KStr "a", VInt 1)];
       AddToDictionaryBlock.key := "b";
       AddToDictionaryBlock.value := VInt 0;
       AddToDictionaryBlock.entries := [(KStr "c", VInt 3)] |} in
  ∃ updated : dict,
    AddToDictionaryBlock.run input_data
    = ([("updated_dictionary", VDict updated)], inr tt)
    ∧ FindInDictionaryBlock.run Fixtures.json_loads Fixtures.builtin_attr
        {| FindInDictionaryBlock.input := VDict updated;
           FindInDictionaryBlock.key := KStr "b" |}
      = ([("output", VInt 0)], inr tt).
Proof.
  intros input_data.
  apply (merge_then_lookup_pair Fixtures.json_loads Fixtures.builtin_attr
           input_data); [reflexivity|discriminate|reflexivity].
Defined.

Lemma merge_then_lookup_batch_witness :
  let input_data :=
    {| AddToDictionaryBlock.dictionary := [(KStr "a", VInt 1)];
       AddToDictionaryBlock.key := "c";
       AddToDictionaryBlock.value := VInt 9;
       AddToDictionaryBlock.entries := [(KStr "c", VInt 3); (KInt 4, VNone)] |} in
  ∃ updated : dict,
    AddToDictionaryBlock.run input_data
    = ([("updated_dictionary", VDict updated)], inr tt)
    ∧ FindInDictionaryBlock.run Fixtures.json_loads Fixtures.builtin_attr
        {| FindInDictionaryBlock.input := VDict updated;
           FindInDictionaryBlock.key := KStr "c" |}
      = ([("output", VInt 3)], inr tt).
Proof.
  intros input_data.
  apply (merge_then_lookup_batch Fixtures.json_loads Fixtures.builtin_attr
           input_data (KStr "c") (VInt 3)); [|reflexivity].
  apply (bool_decide_unpack _). reflexivity.
Defined.

(** X3.  The merge keeps the keys of [dictionary] where they are: the keys
    of the emitted dictionary are those of [dictionary], in their order,
    followed by keys that [dictionary] did not have. *)
Theorem merge_keeps_key_order (input_data : AddToDictionaryBlock.Input) :
  ∃ (updated : dict) (added : list dict_key),
    AddToDictionaryBlock.run input_data
    = ([("updated_dictionary", VDict updated)], inr tt)
    ∧ updated.*1 = (AddToDictionaryBlock.dictionary input_data).*1 ++ added
    ∧ Forall (fun k => k ∉ (AddToDictionaryBlock.dictionary input_data).*1) added.
Proof.
  set (d := AddToDictionaryBlock.dictionary input_data).
  set (single := (is_not_None (AddToDictionaryBlock.value input_data)
       && negb (String.eqb (AddToDictionaryBlock.key input_data) ""))%bool).
  set (d1 := if single
             then dict_set (KStr (AddToDictionaryBlock.key input_data))
                    (AddToDictionaryBlock.value input_data) d
             else d).
  assert (Hd1 : ∃ a0, d1.*1 = d.*1 ++ a0 ∧ Forall (fun k => k ∉ d.*1) a0).
  { unfold d1. destruct single.
    - rewrite dict_set_keys. destruct (dict_has _ d) eqn:E.
      + exists []. by rewrite app_nil_r.
      + eexists [_]. split; [done|]. constructor; [|done].
        by apply dict_has_false.
    - exists []. by rewrite app_nil_r. }
  destruct Hd1 as (a0 & Hkeys0 & Hnew0).
  destruct (dict_update_keys (AddToDictionaryBlock.entries input_data) d1)
    as (a1 & Hkeys1 & Hnew1).
  eexists _, (a0 ++ a1). split; [apply add_to_dictionary_run|].
  fold d single d1. rewrite Hkeys1, Hkeys0, <- app_assoc. split; [done|].
  apply Forall_app. split; [done|].
  eapply Forall_impl; [exact Hnew1|]. intros x Hx Hin. apply Hx.
  rewrite Hkeys0. apply elem_of_app. by left.
Qed.

(** X4.  The merge keeps a dictionary a dictionary: when the keys of
    [dictionary] are distinct, so are the keys of the emitted one. *)
Theorem merge_keeps_keys_distinct (input_data : AddToDictionaryBlock.Input) :
  NoDup (AddToDictionaryBlock.dictionary input_data).*1 →
  ∃ updated : dict,
    AddToDictionaryBlock.run input_data
    = ([("updated_dictionary", VDict updated)], inr tt)
    ∧ NoDup updated.*1.
Proof.
  intros Hnd. eexists. split; [apply add_to_dictionary_run|].
  apply dict_update_NoDup. destruct (_ && _)%bool; [|done].
  by apply dict_set_NoDup.
Qed.

Lemma merge_keeps_keys_distinct_witness :
  let input_data :=
    {| AddToDictionaryBlock.dictionary := [(KStr "a", VInt 1); (KInt 2, VNone)];
       AddToDictionaryBlock.key := "a";
       AddToDictionaryBlock.value := VInt 5;
       AddToDictionaryBlock.entries := [(KStr "a", VInt 3); (KStr "b", VInt 4)] |} in
  ∃ updated : dict,
    AddToDictionaryBlock.run input_data
    = ([("updated_dictionary", VDict updated)], inr tt)
    ∧ NoDup updated.*1.
Proof.
  intros input_data. apply (merge_keeps_keys_distinct input_data).
  apply (bool_decide_unpack _). reflexivity.
Defined.

(** Assignments to keys that are all present leave the keys as they are. *)
Lemma dict_update_keys_present (es d : dict) :
  (∀ k, k ∈ es.*1 → k ∈ d.*1) →
  (foldl (fun d kv => dict_set (fst kv) (snd kv) d) d es).*1 = d.*1.
Proof.
  revert d. induction es as [|[k v] es IH]; intros d Hin; [reflexivity|].
  assert (Hk : (dict_set k v d).*1 = d.*1).
  { rewrite dict_set_keys.
    replace (dict_has k d) with true; [done|].
    symmetry. apply dict_has_elem_of, Hin. rewrite fmap_cons. by left. }
  cbn [foldl fst snd]. rewrite IH, Hk; [done|].
  intros k' Hk'. rewrite Hk. apply Hin. rewrite fmap_cons. by right.
Qed.

(** Merging the same pair and batch a second time changes nothing. *)
Lemma merge_twice (single : bool) (k0 : dict_key) (v0 : Any) (es d : dict) :
  NoDup d.*1 → NoDup es.*1 →
  let merge := fun d : dict =>
    foldl (fun d kv => dict_set (fst kv) (snd kv) d)
      (if single then dict_set k0 v0 d else d) es in
  merge (merge d) = merge d.
Proof.
  intros Hd Hes merge.
  assert (Hget : ∀ d' k, dict_get k (merge d')
    = match dict_get k es with
      | Some v => Some v
      | None => if (single && key_eqb k k0)%bool then Some v0 else dict_get k d'
      end).
  { intros d' k. unfold merge. rewrite (dict_get_update _ _ _ Hes).
    destruct (dict_get k es); [done|].
    destruct single; [|done]. by rewrite dict_get_set. }
  assert (Hnd : ∀ d', NoDup d'.*1 → NoDup (merge d').*1).
  { intros d' Hd'. unfold merge. apply dict_update_NoDup.
    destruct single; [|done]. by apply dict_set_NoDup. }
  assert (Hsingle : single = true → k0 ∈ (merge d).*1).
  { intros ->. apply dict_has_elem_of. unfold dict_has. rewrite Hget.
    destruct (dict_get k0 es); [done|]. by rewrite key_eqb_refl. }
  assert (Hbatch : ∀ k, k ∈ es.*1 → k ∈ (merge d).*1).
  { intros k Hk. apply dict_has_elem_of. unfold dict_has. rewrite Hget.
    apply dict_has_elem_of in Hk. unfold dict_has in Hk.
    by destruct (dict_get k es). }
  apply dict_ext.
  - by apply Hnd, Hnd.
  - unfold merge at 1. rewrite dict_update_keys_present.
    + destruct single; [|done]. rewrite dict_set_keys.
      replace (dict_has k0 (merge d)) with true; [done|].
      symmetry. by apply dict_has_elem_of, Hsingle.
    + intros k Hk. destruct single; [|by apply Hbatch].
      rewrite dict_set_keys.
      replace (dict_has k0 (merge d)) with true; [by apply Hbatch|].
      symmetry. by apply dict_has_elem_of, Hsingle.
  - intros k. rewrite (Hget (merge d)), (Hget d).
    destruct (dict_get k es); [done|].
    by destruct (single && key_eqb k k0)%bool.
Qed.

(** X5.  The merge is idempotent: with distinct keys in [dictionary] and in
    [entries], feeding the emitted dictionary back as [dictionary], with the
    same [key], [value] and [entries], emits that same dictionary again. *)
Theorem merge_idempotent (input_data : AddToDictionaryBlock.Input) :
  NoDup (AddToDictionaryBlock.dictionary input_data).*1 →
  NoDup (AddToDictionaryBlock.entries input_data).*1 →
  ∃ updated : dict,
    AddToDictionaryBlock.run input_data
    = ([("updated_dictionary", VDict updated)], inr tt)
    ∧ AddToDictionaryBlock.run
        {| AddToDictionaryBlock.dictionary := updated;
           AddToDictionaryBlock.key := AddToDictionaryBlock.key input_data;
           AddToDictionaryBlock.value := AddToDictionaryBlock.value input_data;
           AddToDictionaryBlock.entries := AddToDictionaryBlock.entries input_data |}
      = ([("updated_dictionary", VDict updated)], inr tt).
Proof.
  intros Hd Hes. eexists. split; [apply add_to_dictionary_run|].
  rewrite add_to_dictionary_run.
  cbn [AddToDictionaryBlock.dictionary AddToDictionaryBlock.key
       AddToDictionaryBlock.value AddToDictionaryBlock.entries].
  pose proof (merge_twice
    (is_not_None (AddToDictionaryBlock.value input_data)
     && negb (String.eqb (AddToDictionaryBlock.key input_data) ""))
    (KStr (AddToDictionaryBlock.key input_data))
    (AddToDictionaryBlock.value input_data) _ _ Hd Hes) as Htwice.
  cbv zeta in Htwice. by rewrite Htwice.
Qed.

Lemma merge_idempotent_witness :
  let input_data :=
    {| AddToDictionaryBlock.dictionary := [(KStr "a", VInt 1); (KStr "b", VInt 2)];
       AddToDictionaryBlock.key := "b";
       AddToDictionaryBlock.value := VInt 20;
       AddToDictionaryBlock.entries := [(KStr "b", VInt 200); (KStr "c", VInt 3)] |} in
  ∃ updated : dict,
    AddToDictionaryBlock.run input_data
    = ([("updated_dictionary", VDict updated)], inr tt)
    ∧ AddToDictionaryBlock.run
        {| AddToDictionaryBlock.dictionary := updated;
           AddToDictionaryBlock.key := "b";
           AddToDictionaryBlock.value := VInt 20;
           AddToDictionaryBlock.entries :=
             [(KStr "b", VInt 200); (KStr "c", VInt 3)] |}
      = ([("updated_dictionary", VDict updated)], inr tt).
Proof.
  intros input_data.
  apply (merge_idempotent input_data);
    apply (bool_decide_unpack _); reflexivity.
Defined.

(** ** List insertion: what is kept, where the batch lands *)

(** X6.  The insertion keeps every element of [list], in order, and adds the
    batch as one block: the emitted list is [list] cut in two with [entries],
    then [entry] if it is true, in between; without [position] the cut is at
    the end.  So its length is that of [list] plus that of the batch. *)
Theorem insertion_keeps_list (input_data : AddToListBlock.Input) :
  let batch :=
    AddToListBlock.entries input_data
    ++ (if truthy (AddToListBlock.entry input_data)
        then [AddToListBlock.entry input_data] else []) in
  ∃ before after updated : list Any,
    AddToListBlock.run input_data = ([("updated_list", VList updated)], inr tt)
    ∧ AddToListBlock.list input_data = before ++ after
    ∧ updated = before ++ batch ++ after
    ∧ (AddToListBlock.position input_data = None → after = [])
    ∧ length updated
      = length (AddToListBlock.list input_data) + length batch.
Proof.
  intros batch. rewrite add_to_list_run. cbv zeta.
  assert (Hbatch :
    (if truthy (AddToListBlock.entry input_data)
     then AddToListBlock.entries input_data ++ [AddToListBlock.entry input_data]
     else AddToListBlock.entries input_data) = batch).
  { unfold batch. destruct (truthy _); [done|by rewrite app_nil_r]. }
  rewrite Hbatch. set (l := AddToListBlock.list input_data).
  destruct (AddToListBlock.position input_data) as [pos|].
  - exists (py_slice None (Some pos) l), (py_slice (Some pos) None l).
    eexists. split; [reflexivity|]. split; [by rewrite py_slice_split|].
    split; [done|]. split; [done|].
    rewrite !length_app. rewrite <- (py_slice_split pos l) at 3.
    rewrite length_app. lia.
  - exists l, []. eexists. split; [reflexivity|].
    rewrite !app_nil_r. repeat split. by rewrite length_app.
Qed.

Lemma add_to_list_in_range (input_data : AddToListBlock.Input) (pos : Z) :
  AddToListBlock.position input_data = Some pos →
  (0 ≤ pos ≤ Z.of_nat (length (AddToListBlock.list input_data)))%Z →
  AddToListBlock.run input_data
  = ([("updated_list",
       VList (take (Z.to_nat pos) (AddToListBlock.list input_data)
              ++ (if truthy (AddToListBlock.entry input_data)
                  then AddToListBlock.entries input_data
                       ++ [AddToListBlock.entry input_data]
                  else AddToListBlock.entries input_data)
              ++ drop (Z.to_nat pos) (AddToListBlock.list input_data)))],
     inr tt).
Proof.
  intros Hpos Hrange. rewrite add_to_list_run, Hpos. cbv zeta.
  by destruct (py_slice_prefix pos _ Hrange) as [-> ->].
Qed.

(** X7.  With a position [p] between 0 and the length of [list], the
    elements before index [p] stay where they are, the batch occupies the
    indices from [p] on, and the element that was at index [p + i] is found
    at index [p + len(batch) + i]. *)
Theorem insertion_shifts_right (input_data : AddToListBlock.Input) (pos : Z) :
  AddToListBlock.position input_data = Some pos →
  (0 ≤ pos ≤ Z.of_nat (length (AddToListBlock.list input_data)))%Z →
  let l := AddToListBlock.list input_data in
  let batch :=
    AddToListBlock.entries input_data
    ++ (if truthy (AddToListBlock.entry input_data)
        then [AddToListBlock.entry input_data] else []) in
  let p := Z.to_nat pos in
  ∃ updated : list Any,
    AddToListBlock.run input_data = ([("updated_list", VList updated)], inr tt)
    ∧ (∀ i, i < p → updated !! i = l !! i)
    ∧ (∀ j, j < length batch → updated !! (p + j) = batch !! j)
    ∧ (∀ i, updated !! (p + length batch + i) = l !! (p + i)).
Proof.
  intros Hpos Hrange l batch p.
  rewrite (add_to_list_in_range _ _ Hpos Hrange). fold l p.
  assert (Hbatch :
    (if truthy (AddToListBlock.entry input_data)
     then AddToListBlock.entries input_data ++ [AddToListBlock.entry input_data]
     else AddToListBlock.entries input_data) = batch).
  { unfold batch. destruct (truthy _); [done|by rewrite app_nil_r]. }
  rewrite Hbatch. eexists. split; [reflexivity|].
  assert (Hlen : length (take p l) = p)
    by (rewrite length_take; unfold p, l; lia).
  repeat split.
  - intros i Hi. rewrite lookup_app_l by lia. by apply lookup_take_lt.
  - intros j Hj. rewrite lookup_app_r by lia.
    rewrite lookup_app_l by lia. f_equal. lia.
  - intros i. rewrite lookup_app_r by lia. rewrite lookup_app_r by lia.
    rewrite lookup_drop. f_equal. lia.
Qed.

Lemma insertion_shifts_right_witness :
  let input_data :=
    {| AddToListBlock.list := [VStr "a"; VStr "b"];
       AddToListBlock.entry := VStr "e";
       AddToListBlock.entries := [VStr "f"; VStr "g"];
       AddToListBlock.position := Some 1%Z |} in
  ∃ updated : list Any,
    AddToListBlock.run input_data = ([("updated_list", VList updated)], inr tt)
    ∧ updated !! 0 = Some (VStr "a")
    ∧ updated !! 1 = Some (VStr "f")
    ∧ updated !! 4 = Some (VStr "b").
Proof.
  intros input_data.
  destruct (insertion_shifts_right input_data 1%Z eq_refl)
    as (updated & Hrun & Hbefore & Hbatch & Hafter); [simpl; lia|].
  exists updated. split; [exact Hrun|].
  split; [apply (Hbefore 0); simpl; lia|].
  split; [apply (Hbatch 0); simpl; lia|].
  exact (Hafter 0).
Defined.

(** X8.  A position at or past the end of [list] appends: the routine emits
    what it emits without [position]. *)
Theorem insertion_past_end_appends (input_data : AddToListBlock.Input) (pos : Z) :
  AddToListBlock.position input_data = Some pos →
  (Z.of_nat (length (AddToListBlock.list input_data)) ≤ pos)%Z →
  AddToListBlock.run input_data
  = AddToListBlock.run
      {| AddToListBlock.list := AddToListBlock.list input_data;
         AddToListBlock.entry := AddToListBlock.entry input_data;
         AddToListBlock.entries := AddToListBlock.entries input_data;
         AddToListBlock.position := None |}.
Proof.
  intros Hpos Hrange. rewrite !add_to_list_run, Hpos. cbv zeta.
  cbn [AddToListBlock.list AddToListBlock.entry AddToListBlock.entries
       AddToListBlock.position].
  set (l := AddToListBlock.list input_data) in *.
  assert (Hb : slice_bound (length l) pos = length l).
  { unfold slice_bound. destruct (Z.ltb_spec pos 0); lia. }
  unfold py_slice. rewrite Hb, drop_0, Nat.sub_0_r, Nat.sub_diag.
  rewrite take_ge, drop_all, take_0, app_nil_r by lia. reflexivity.
Qed.

Lemma insertion_past_end_appends_witness :
  AddToListBlock.run
    {| AddToListBlock.list := [VInt 1; VInt 2];
       AddToListBlock.entry := VInt 3;
       AddToListBlock.entries := [];
       AddToListBlock.position := Some 7%Z |}
  = AddToListBlock.run
      {| AddToListBlock.list := [VInt 1; VInt 2];
         AddToListBlock.entry := VInt 3;
         AddToListBlock.entries := [];
         AddToListBlock.position := None |}.
Proof.
  apply (insertion_past_end_appends
           {| AddToListBlock.list := [VInt 1; VInt 2];
              AddToListBlock.entry := VInt 3;
              AddToListBlock.entries := [];
              AddToListBlock.position := Some 7%Z |} 7%Z eq_refl).
  simpl. lia.
Defined.

(** X9.  A negative position counts from the end of [list], and not before
    its start: the routine emits what it emits for the position
    [max(0, len(list) + position)]. *)
Theorem insertion_negative_position (input_data : AddToListBlock.Input) (pos : Z) :
  AddToListBlock.position input_data = Some pos →
  (pos < 0)%Z →
  AddToListBlock.run input_data
  = AddToListBlock.run
      {| AddToListBlock.list := AddToListBlock.list input_data;
         AddToListBlock.entry := AddToListBlock.entry input_data;
         AddToListBlock.entries := AddToListBlock.entries input_data;
         AddToListBlock.position :=
           Some (Z.max 0 (Z.of_nat (length (AddToListBlock.list input_data)) + pos)) |}.
Proof.
  intros Hpos Hneg. rewrite !add_to_list_run, Hpos. cbv zeta.
  cbn [AddToListBlock.list AddToListBlock.entry AddToListBlock.entries
       AddToListBlock.position].
  set (l := AddToListBlock.list input_data) in *.
  assert (Hb : slice_bound (length l) pos
               = slice_bound (length l) (Z.max 0 (Z.of_nat (length l) + pos))).
  { unfold slice_bound. destruct (Z.ltb_spec pos 0); [|lia].
    destruct (Z.ltb_spec (Z.max 0 (Z.of_nat (length l) + pos)) 0); lia. }
  unfold py_slice. by rewrite Hb.
Qed.

Lemma insertion_negative_position_witness :
  AddToListBlock.run
    {| AddToListBlock.list := [VInt 1; VInt 2; VInt 3];
       AddToListBlock.entry := VStr "e";
       AddToListBlock.entries := [];
       AddToListBlock.position := Some (-1)%Z |}
  = ([("updated_list", VList [VInt 1; VInt 2; VStr "e"; VInt 3])], inr tt).
Proof.
  rewrite (insertion_negative_position
             {| AddToListBlock.list := [VInt 1; VInt 2; VInt 3];
                AddToListBlock.entry := VStr "e";
                AddToListBlock.entries := [];
                AddToListBlock.position := Some (-1)%Z |} (-1)%Z eq_refl);
    [reflexivity|lia].
Defined.

(** Looking an index up in a sequence that has it. *)
Lemma find_in_sequence (json_loads : string → res Any)
    (builtin_attr : Any → string → option Any) (l : list Any) (i : nat) (v : Any) :
  l !! i = Some v →
  FindInDictionaryBlock.run json_loads builtin_attr
    {| FindInDictionaryBlock.input := VList l;
       FindInDictionaryBlock.key := KInt (Z.of_nat i) |}
  = ([("output", v)], inr tt).
Proof.
  intros Hi. pose proof (lookup_lt_Some _ _ _ Hi) as Hlt.
  unfold FindInDictionaryBlock.run. cbv zeta.
  cbn [FindInDictionaryBlock.input FindInDictionaryBlock.key].
  rewrite gen_ret_bind.
  unfold FindInDictionaryBlock.resolve, FindInDictionaryBlock.dict_entry,
    FindInDictionaryBlock.list_element.
  destruct (Z.leb_spec 0 (Z.of_nat i)); [|lia].
  destruct (Z.ltb_spec (Z.of_nat i) (Z.of_nat (length l))); [|lia].
  cbn [andb]. by rewrite Nat2Z.id, Hi.
Qed.

(** X10.  Insert, then look up by index: with a position between 0 and the
    length of [list] and a batch that is not empty, the lookup block given
    the emitted list and the position as key emits the first element of the
    batch on [output]. *)
Theorem insert_then_lookup_position (json_loads : string → res Any)
    (builtin_attr : Any → string → option Any)
    (input_data : AddToListBlock.Input) (pos : Z) (b : Any) :
  AddToListBlock.position input_data = Some pos →
  (0 ≤ pos ≤ Z.of_nat (length (AddToListBlock.list input_data)))%Z →
  (AddToListBlock.entries input_data
   ++ (if truthy (AddToListBlock.entry input_data)
       then [AddToListBlock.entry input_data] else [])) !! 0 = Some b →
  ∃ updated : list Any,
    AddToListBlock.run input_data = ([("updated_list", VList updated)], inr tt)
    ∧ FindInDictionaryBlock.run json_loads builtin_attr
        {| FindInDictionaryBlock.input := VList updated;
           FindInDictionaryBlock.key := KInt pos |}
      = ([("output", b)], inr tt).
Proof.
  intros Hpos Hrange Hb. rewrite (add_to_list_in_range _ _ Hpos Hrange).
  eexists. split; [reflexivity|].
  replace (KInt pos) with (KInt (Z.of_nat (Z.to_nat pos))) by (f_equal; lia).
  apply find_in_sequence.
  rewrite lookup_app_r by (rewrite length_take; lia).
  replace (Z.to_nat pos - length (take (Z.to_nat pos) (AddToListBlock.list input_data)))
    with 0 by (rewrite length_take; lia).
  apply lookup_app_l_Some.
  destruct (truthy _); [exact Hb|]. by rewrite app_nil_r in Hb.
Qed.

Lemma insert_then_lookup_position_witness :
  let input_data :=
    {| AddToListBlock.list := [VStr "a"; VStr "b"];
       AddToListBlock.entry := VStr "e";
       AddToListBlock.entries := [];
       AddToListBlock.position := Some 2%Z |} in
  ∃ updated : list Any,
    AddToListBlock.run input_data = ([("updated_list", VList updated)], inr tt)
    ∧ FindInDictionaryBlock.run Fixtures.json_loads Fixtures.builtin_attr
        {| FindInDictionaryBlock.input := VList updated;
           FindInDictionaryBlock.key := KInt 2 |}
      = ([("output", VStr "e")], inr tt).
Proof.
  intros input_data.
  apply (insert_then_lookup_position Fixtures.json_loads Fixtures.builtin_attr
           input_data 2%Z (VStr "e") eq_refl); [simpl; lia|reflexivity].
Defined.

(** ** List creation: the chunks *)

(** The number of chunks covers the list, and all chunks but the last are
    within it. *)
Lemma chunk_count_bounds (len n : Z) :
  (0 ≤ len)%Z → (0 < n)%Z →
  let count := ((len + n - 1) / n)%Z in
  (0 ≤ count ∧ len ≤ count * n ∧ (count - 1) * n < len ∨ len = 0 ∧ count = 0)%Z.
Proof.
  intros Hlen Hn count.
  pose proof (Z.mul_div_le (len + n - 1) n Hn) as Hle.
  pose proof (Z.mul_succ_div_gt (len + n - 1) n Hn) as Hgt.
  fold count in Hle, Hgt.
  destruct (Z.eq_dec len 0%Z) as [->|Hne].
  - right. split; [done|]. unfold count.
    apply Z.div_small. lia.
  - left. assert (0 ≤ count)%Z by (apply Z.div_pos; lia). nia.
Qed.

Lemma join_chunks {A : Type} (l : list A) (n count : nat) :
  concat (map (fun i => take n (drop (i * n) l)) (seq 0 count))
  = take (count * n) l.
Proof.
  induction count as [|c IH]; [by rewrite take_0|].
  rewrite seq_S, map_app, concat_app, IH. simpl.
  rewrite app_nil_r, take_take_drop. f_equal. lia.
Qed.

Section Chunks.
Variable values : list Any.
Variable n : Z.
Hypothesis n_positive : (0 < n)%Z.

Let run : gen unit :=
  CreateListBlock.run
    {| CreateListBlock.values := values; CreateListBlock.max_size := Some n |}.
Let count : nat := Z.to_nat ((Z.of_nat (length values) + n - 1) / n).

(** X11.  With a positive [max_size] the routine raises nothing and emits
    [list] events only, as many as [len(values) / max_size] rounded up; the
    [i]-th of them carries [values[i * max_size : (i + 1) * max_size]]. *)
Theorem create_list_chunk_stream :
  raised run = None
  ∧ length (events run) = count
  ∧ ∀ i, i < count →
      events run !! i
      = Some ("list", VList (take (Z.to_nat n) (drop (i * Z.to_nat n) values))).
Proof.
  unfold run. rewrite (create_list_streams_chunks _ _ n_positive). fold count.
  split; [reflexivity|]. simpl. split; [by rewrite length_map, length_seq|].
  intros i Hi. rewrite list_lookup_fmap, lookup_seq_lt by done. reflexivity.
Qed.

(** X12.  Chunking loses nothing: joined in order, the chunks emitted for a
    positive [max_size] are [values]. *)
Theorem create_list_chunks_join : joined_lists (events run) = values.
Proof.
  unfold run. rewrite (create_list_streams_chunks _ _ n_positive). fold count.
  unfold joined_lists. simpl. rewrite flat_map_concat_map, map_map. simpl.
  rewrite (join_chunks values (Z.to_nat n) count).
  apply take_ge.
  destruct (chunk_count_bounds (Z.of_nat (length values)) n) as [H|[H _]];
    [lia|done|unfold count; nia|].
  destruct values; [simpl; lia|simpl in H; lia].
Qed.

(** X13.  The pieces are bounded: every event emitted for a positive
    [max_size] carries a list that is not empty and has at most [max_size]
    elements. *)
Theorem create_list_chunks_bounded :
  Forall (fun e => ∃ chunk, e = ("list", VList chunk)
                            ∧ 0 < length chunk ≤ Z.to_nat n) (events run).
Proof.
  unfold run. rewrite (create_list_streams_chunks _ _ n_positive). fold count.
  simpl. apply Forall_map, Forall_forall. intros i Hi.
  apply elem_of_seq in Hi. eexists. split; [reflexivity|].
  rewrite length_take, length_drop.
  destruct (chunk_count_bounds (Z.of_nat (length values)) n) as [H|[_ H]];
    [lia|done| |unfold count in Hi; lia].
  assert (i * Z.to_nat n < length values) by (unfold count in Hi; nia).
  lia.
Qed.

End Chunks.

Lemma create_list_chunk_stream_witness :
  let run :=
    CreateListBlock.run
      {| CreateListBlock.values := [VInt 1; VInt 2; VInt 3; VInt 4; VInt 5];
         CreateListBlock.max_size := Some 2%Z |} in
  raised run = None
  ∧ length (events run) = 3
  ∧ events run !! 2 = Some ("list", VList [VInt 5]).
Proof.
  intros run.
  destruct (create_list_chunk_stream
              [VInt 1; VInt 2; VInt 3; VInt 4; VInt 5] 2%Z eq_refl)
    as (Hraised & Hlen & Hchunk).
  split; [exact Hraised|]. split; [exact Hlen|].
  apply (Hchunk 2). vm_compute. lia.
Defined.

Lemma create_list_chunks_join_witness :
  joined_lists
    (events (CreateListBlock.run
               {| CreateListBlock.values := [VInt 1; VInt 2; VInt 3; VInt 4; VInt 5];
                  CreateListBlock.max_size := Some 2%Z |}))
  = [VInt 1; VInt 2; VInt 3; VInt 4; VInt 5].
Proof.
  exact (create_list_chunks_join [VInt 1; VInt 2; VInt 3; VInt 4; VInt 5]
           2%Z eq_refl).
Defined.

Lemma create_list_chunks_bounded_witness :
  Forall (fun e => ∃ chunk, e = ("list", VList chunk) ∧ 0 < length chunk ≤ 2)
    (events (CreateListBlock.run
               {| CreateListBlock.values := [VInt 1; VInt 2; VInt 3; VInt 4; VInt 5];
                  CreateListBlock.max_size := Some 2%Z |})).
Proof.
  exact (create_list_chunks_bounded [VInt 1; VInt 2; VInt 3; VInt 4; VInt 5]
           2%Z eq_refl).
Defined.

(** X14.  A chunk length that reaches the length of a non-empty list
    ([max_size] at least [len(values)], or absent, or 0) gives a single
    [list] event with the whole list. *)
Theorem create_list_single_event (input_data : CreateListBlock.Input) :
  CreateListBlock.values input_data ≠ [] →
  (Z.of_nat (length (CreateListBlock.values input_data))
   ≤ int_or (CreateListBlock.max_size input_data)
       (Z.of_nat (length (CreateListBlock.values input_data))))%Z →
  CreateListBlock.run input_data
  = ([("list", VList (CreateListBlock.values input_data))], inr tt).
Proof.
  destruct input_data as [values max_size]. simpl. intros Hne Hsize.
  set (len := Z.of_nat (length values)) in *.
  assert (Hlen : (0 < len)%Z) by (destruct values; [done|unfold len; simpl; lia]).
  set (m := int_or max_size len) in *.
  assert (Hsame :
    CreateListBlock.run
      {| CreateListBlock.values := values; CreateListBlock.max_size := max_size |}
    = CreateListBlock.run
        {| CreateListBlock.values := values;
           CreateListBlock.max_size := Some m |}).
  { unfold CreateListBlock.run.
    cbn [CreateListBlock.values CreateListBlock.max_size].
    fold len m. by rewrite (int_or_nonzero m len) by lia. }
  rewrite Hsame, create_list_streams_chunks by lia. fold len.
  replace ((len + m - 1) / m)%Z with 1%Z.
  - simpl. rewrite drop_0, take_ge by (unfold len in *; lia). reflexivity.
  - apply (Z.div_unique _ _ 1 (len - 1)); lia.
Qed.

Lemma create_list_single_event_witness :
  CreateListBlock.run
    {| CreateListBlock.values := [VInt 1; VInt 2];
       CreateListBlock.max_size := Some 5%Z |}
  = ([("list", VList [VInt 1; VInt 2])], inr tt).
Proof.
  apply (create_list_single_event
           {| CreateListBlock.values := [VInt 1; VInt 2];
              CreateListBlock.max_size := Some 5%Z |}); [discriminate|].
  simpl. lia.
Defined.

Lemma py_range_negative_step (stop step : Z) :
  (0 ≤ stop)%Z → (step < 0)%Z → py_range 0 stop step = inr [].
Proof.
  intros Hstop Hstep. unfold py_range.
  destruct (Z.eqb_spec step 0); [lia|].
  destruct (Z.ltb_spec 0 step); [lia|].
  replace (Z.to_nat ((0 - stop - step - 1) / - step)) with 0; [done|].
  assert ((0 - stop - step - 1) / - step < 1)%Z
    by (apply Z.div_lt_upper_bound; lia).
  lia.
Qed.

(** X15.  With a negative [max_size] the routine emits nothing, neither a
    [list] nor an [error] event, and raises nothing, whatever [values] is. *)
Theorem create_list_negative_size_silent (values : list Any) (n : Z) :
  (n < 0)%Z →
  CreateListBlock.run
    {| CreateListBlock.values := values; CreateListBlock.max_size := Some n |}
  = ([], inr tt).
Proof.
  intros Hn. unfold CreateListBlock.run.
  cbn [CreateListBlock.values CreateListBlock.max_size].
  rewrite int_or_nonzero by lia.
  by rewrite py_range_negative_step by lia.
Qed.

Lemma create_list_negative_size_silent_witness :
  CreateListBlock.run
    {| CreateListBlock.values := [VInt 1; VInt 2];
       CreateListBlock.max_size := Some (-1)%Z |}
  = ([], inr tt).
Proof.
  exact (create_list_negative_size_silent [VInt 1; VInt 2] (-1)%Z eq_refl).
Defined.

(** X16.  The creation routine never raises, and it reports on [error] in
    one case only: [values] is empty and [max_size] is absent or 0.  Then
    [error] is its only event. *)
Theorem create_list_error_iff_empty (input_data : CreateListBlock.Input) :
  raised (CreateListBlock.run input_data) = None
  ∧ ("error" ∈ emitted_fields (CreateListBlock.run input_data)
     ↔ CreateListBlock.values input_data = []
       ∧ (CreateListBlock.max_size input_data = None
          ∨ CreateListBlock.max_size input_data = Some 0%Z))
  ∧ ("error" ∈ emitted_fields (CreateListBlock.run input_data) →
     emitted_fields (CreateListBlock.run input_data) = ["error"]).
Proof.
  destruct input_data as [values max_size]. unfold CreateListBlock.run.
  cbn [CreateListBlock.values CreateListBlock.max_size].
  set (len := Z.of_nat (length values)).
  set (m := int_or max_size len).
  assert (Hm : m = 0%Z ↔ values = [] ∧ (max_size = None ∨ max_size = Some 0%Z)).
  { unfold m, int_or, len. destruct max_size as [z|].
    - destruct (Z.eqb_spec z 0) as [->|Hz].
      + destruct values; simpl; split; try lia; try tauto; intros [? _]; done.
      + split; [lia|]. intros [_ [?|[= ?]]]; done.
    - destruct values; simpl; split; try lia; try tauto; intros [? _]; done. }
  unfold py_range. destruct (Z.eqb_spec m 0) as [Hz|Hz].
  - split; [reflexivity|]. unfold emitted_fields. simpl.
    split; [|done]. rewrite <- Hm. split; [done|]. intros _. by left.
  - rewrite gen_lift_bind, for_each_yield. unfold try_except, emitted_fields.
    simpl. split; [reflexivity|].
    assert (Hno : "error" ∉ (map (fun x : Z =>
        ("list", VList (py_slice (Some x) (Some (x + m)%Z) values)))
        (map (fun i : nat => (0 + Z.of_nat i * m)%Z)
           (seq 0 (Z.to_nat (if (0 <? m)%Z
                             then ((len - 0 + m - 1) / m)%Z
                             else ((0 - len - m - 1) / - m)%Z))))).*1).
    { rewrite <- list_fmap_compose. intros Hin.
      apply list_elem_of_fmap in Hin as (x & Hx & _). discriminate Hx. }
    split; [|done]. split; [done|]. rewrite <- Hm. done.
Qed.

(** ** Dictionary lookup: one event, integer keys, the key comprehension *)

Section LookupOutcomes.
Variable json_loads : string → res Any.
Variable builtin_attr : Any → string → option Any.

Let run := FindInDictionaryBlock.run json_loads builtin_attr.
Let resolve := FindInDictionaryBlock.resolve builtin_attr.

Lemma resolve_outcome (given obj : Any) (key : dict_key) :
  (∃ v, resolve given obj key = ([("output", v)], inr tt))
  ∨ resolve given obj key = ([("missing", given)], inr tt)
  ∨ (∃ e, resolve given obj key = ([], inl e)).
Proof.
  unfold resolve, FindInDictionaryBlock.resolve.
  destruct (FindInDictionaryBlock.dict_entry obj key); [by eauto|].
  destruct (FindInDictionaryBlock.list_element obj key); [by eauto|].
  destruct obj as [| | | |l|d|oid attrs], key as [k|i];
    try (destruct (py_getattr _ _ _); by eauto); try by eauto.
  destruct l as [|first rest]; [by eauto|].
  destruct (match first with VDict d => dict_has (KStr k) d | _ => false end);
    [|by eauto].
  destruct (FindInDictionaryBlock.items_with_key k (first :: rest)) as [e|vs].
  - right. right. by exists e.
  - left. rewrite gen_lift_bind. by eauto.
Qed.

(** X17.  A lookup ends in one of three ways: exactly one [output] event,
    exactly one [missing] event carrying the input as it was given, or an
    exception with no event at all.  It never emits both fields, and never
    an event before raising. *)
Theorem lookup_one_event_or_raise (input_data : FindInDictionaryBlock.Input) :
  (∃ v, run input_data = ([("output", v)], inr tt))
  ∨ run input_data
    = ([("missing", FindInDictionaryBlock.input input_data)], inr tt)
  ∨ (∃ e, run input_data = ([], inl e)).
Proof.
  unfold run, FindInDictionaryBlock.run. cbv zeta.
  destruct (FindInDictionaryBlock.input input_data) as [| | |s| | |] eqn:Hin;
    try (rewrite gen_ret_bind; apply resolve_outcome).
  destruct (json_loads s) as [e|doc].
  - right. right. by exists e.
  - rewrite gen_lift_bind. apply resolve_outcome.
Qed.

(** X18.  With an integer key and an input that is not text the lookup
    never raises and never reads an attribute: a mapping answers with the
    value under that key, a sequence with the element at that index when
    [0 <= key < len], and everything else, a negative or too large index
    included, is [missing] with the input. *)
Theorem lookup_integer_key (input : Any) (i : Z) :
  (∀ s, input ≠ VStr s) →
  run {| FindInDictionaryBlock.input := input;
         FindInDictionaryBlock.key := KInt i |}
  = ([match input with
      | VDict d =>
          match dict_get (KInt i) d with
          | Some v => ("output", v)
          | None => ("missing", input)
          end
      | VList l =>
          if decide (0 ≤ i < Z.of_nat (length l))%Z
          then match l !! Z.to_nat i with
               | Some v => ("output", v)
               | None => ("missing", input)
               end
          else ("missing", input)
      | _ => ("missing", input)
      end], inr tt).
Proof.
  intros Htext. unfold run, FindInDictionaryBlock.run. cbv zeta.
  cbn [FindInDictionaryBlock.input FindInDictionaryBlock.key].
  destruct input as [| | |s|l|d|oid attrs];
    try (rewrite gen_ret_bind; reflexivity).
  - by destruct (Htext s).
  - rewrite gen_ret_bind.
    unfold FindInDictionaryBlock.resolve, FindInDictionaryBlock.dict_entry,
      FindInDictionaryBlock.list_element.
    destruct (Z.leb_spec 0 i), (Z.ltb_spec i (Z.of_nat (length l)));
      cbn [andb]; case_decide; try lia; try reflexivity.
    by destruct (l !! Z.to_nat i).
  - rewrite gen_ret_bind.
    unfold FindInDictionaryBlock.resolve, FindInDictionaryBlock.dict_entry.
    by destruct (dict_get (KInt i) d).
Qed.

(** X19.  On a sequence whose first element is a mapping containing the
    textual key, the lookup raises [TypeError] exactly when some later
    element is neither a mapping, nor a text or a sequence in which the key
    does not occur; otherwise it emits the values of the key found in the
    mappings, in order. *)
Theorem lookup_projection_raises_iff (d : dict) (rest : list Any)
    (k : string) (v : Any) :
  dict_get (KStr k) d = Some v →
  run {| FindInDictionaryBlock.input := VList (VDict d :: rest);
         FindInDictionaryBlock.key := KStr k |}
  = if forallb (passes_key_test k) rest
    then ([("output",
            VList (v :: omap (fun item => match item with
                                          | VDict d => dict_get (KStr k) d
                                          | _ => None
                                          end) rest))], inr tt)
    else ([], inl (Exn TypeError None)).
Proof.
  intros Hk. unfold run, FindInDictionaryBlock.run. cbv zeta.
  cbn [FindInDictionaryBlock.input FindInDictionaryBlock.key].
  rewrite gen_ret_bind.
  unfold FindInDictionaryBlock.resolve, FindInDictionaryBlock.dict_entry,
    FindInDictionaryBlock.list_element, dict_has.
  rewrite Hk, items_with_key_passes.
  cbn [forallb passes_key_test andb omap list_omap]. rewrite Hk.
  by destruct (forallb (passes_key_test k) rest).
Qed.

End LookupOutcomes.

Lemma lookup_integer_key_witness :
  FindInDictionaryBlock.run Fixtures.json_loads Fixtures.builtin_attr
    {| FindInDictionaryBlock.input := VList [VInt 1; VInt 2; VInt 3];
       FindInDictionaryBlock.key := KInt (-1) |}
  = ([("missing", VList [VInt 1; VInt 2; VInt 3])], inr tt).
Proof.
  apply (lookup_integer_key Fixtures.json_loads Fixtures.builtin_attr
           (VList [VInt 1; VInt 2; VInt 3]) (-1)%Z).
  intros s. discriminate.
Defined.

Lemma lookup_projection_raises_iff_witness :
  FindInDictionaryBlock.run Fixtures.json_loads Fixtures.builtin_attr
    {| FindInDictionaryBlock.input :=
         VList [VDict [(KStr "k1", VStr "v1")]; VStr "other";
                VDict [(KStr "k1", VStr "v3")]];
       FindInDictionaryBlock.key := KStr "k1" |}
  = ([("output", VList [VStr "v1"; VStr "v3"])], inr tt).
Proof.
  exact (lookup_projection_raises_iff Fixtures.json_loads Fixtures.builtin_attr
           [(KStr "k1", VStr "v1")]
           [VStr "other"; VDict [(KStr "k1", VStr "v3")]] "k1" (VStr "v1")
           eq_refl).
Defined.

Lemma emitted_fields_declared_witness :
  Forall (fun f => declared (output_schema FindInList) f = true)
    (emitted_fields
       (execute Fixtures.host
          (RunFindInList {| FindInListBlock.list := [VInt 1; VInt 2];
                            FindInListBlock.value := VInt 7 |}))).
Proof.
  apply (emitted_fields_declared Fixtures.host
           (RunFindInList {| FindInListBlock.list := [VInt 1; VInt 2];
                             FindInListBlock.value := VInt 7 |})).
  intros i Hi. discriminate Hi.
Defined.

(** ** File store, dictionary creation, and which blocks can raise *)

(** X20.  The file store has no handler: an exception of the storage
    collaborator leaves the routine before any event, and a returned
    reference is emitted as the only event, on [file_out]. *)
Theorem file_store_propagates
    (store_media_file : string → string → bool → res Any)
    (input_data : FileStoreBlock.Input) (graph_exec_id : string) :
  FileStoreBlock.run store_media_file input_data graph_exec_id
  = match store_media_file graph_exec_id (FileStoreBlock.file_in input_data)
            (FileStoreBlock.base_64 input_data) with
    | inl e => ([], inl e)
    | inr stored => ([("file_out", stored)], inr tt)
    end.
Proof.
  unfold FileStoreBlock.run. by destruct (store_media_file _ _ _).
Qed.

(** X21.  Create, then look up: the creation routine emits [values] itself
    on [dictionary], never [error]; and the lookup block on it answers a
    present key with its value, an absent integer key with [missing], and
    an absent textual key with the attribute of that name when the mapping
    object has one, else with [missing]. *)
Theorem create_then_lookup (json_loads : string → res Any)
    (builtin_attr : Any → string → option Any)
    (values : dict) (key : dict_key) :
  CreateDictionaryBlock.run {| CreateDictionaryBlock.values := values |}
  = ([("dictionary", VDict values)], inr tt)
  ∧ FindInDictionaryBlock.run json_loads builtin_attr
      {| FindInDictionaryBlock.input := VDict values;
         FindInDictionaryBlock.key := key |}
    = ([match dict_get key values with
        | Some v => ("output", v)
        | None =>
            match key with
            | KStr name =>
                match builtin_attr (VDict values) name with
                | Some attribute => ("output", attribute)
                | None => ("missing", VDict values)
                end
            | KInt _ => ("missing", VDict values)
            end
        end], inr tt).
Proof.
  split; [reflexivity|].
  unfold FindInDictionaryBlock.run. cbv zeta.
  cbn [FindInDictionaryBlock.input FindInDictionaryBlock.key].
  rewrite gen_ret_bind.
  unfold FindInDictionaryBlock.resolve, FindInDictionaryBlock.dict_entry.
  destruct (dict_get key values); [reflexivity|].
  destruct key as [name|i]; cbn; [|reflexivity].
  by destruct (builtin_attr (VDict values) name).
Qed.

(** X22.  Only the file store and the lookup can let an exception out, and a
    run that raised has emitted nothing: the other nine blocks never raise,
    whatever their input and the collaborators are. *)
Theorem only_store_and_lookup_raise (h : Host) (inv : Invocation) (e : exn) :
  raised (execute h inv) = Some e →
  events (execute h inv) = []
  ∧ (block_of inv = FileStore ∨ block_of inv = FindInDictionary).
Proof.
  destruct inv as [i g|i|i|i|i|i|i|i|i|i|i]; simpl; try discriminate.
  - unfold FileStoreBlock.run.
    destruct (store_media_file h _ _ _); [|discriminate]. by auto.
  - intros Hraised. split; [|by auto].
    unfold FindInDictionaryBlock.run in *. cbv zeta in *.
    assert (Hres : ∀ obj,
      raised (FindInDictionaryBlock.resolve (builtin_attr h)
                (FindInDictionaryBlock.input i) obj
                (FindInDictionaryBlock.key i)) = Some e →
      events (FindInDictionaryBlock.resolve (builtin_attr h)
                (FindInDictionaryBlock.input i) obj
                (FindInDictionaryBlock.key i)) = []).
    { intros obj.
      destruct (resolve_outcome (builtin_attr h) (FindInDictionaryBlock.input i)
                  obj (FindInDictionaryBlock.key i))
        as [[v ->]|[->|[e' ->]]]; done. }
    destruct (FindInDictionaryBlock.input i);
      try (rewrite gen_ret_bind in *; by apply Hres).
    destruct (json_loads h s) as [e'|doc]; [reflexivity|].
    rewrite gen_lift_bind in *. by apply Hres.
  - unfold FindInListBlock.run, index.
    destruct (list_index _ _); discriminate.
  - unfold CreateListBlock.run.
    destruct (py_range _ _ _) as [e'|idxs]; [discriminate|].
    rewrite gen_lift_bind, for_each_yield. discriminate.
  - unfold UniversalTypeConverterBlock.run.
    destruct (convert h _ _); discriminate.
Qed.

Lemma only_store_and_lookup_raise_witness :
  let inv :=
    RunFindInDictionary
      {| FindInDictionaryBlock.input := VStr "{";
         FindInDictionaryBlock.key := KStr "w" |} in
  events (execute Fixtures.host inv) = []
  ∧ (block_of inv = FileStore ∨ block_of inv = FindInDictionary).
Proof.
  intros inv.
  exact (only_store_and_lookup_raise Fixtures.host inv
           (Exn JSONDecodeError None) eq_refl).
Defined.

(** ** Insert, then search *)

(** Induction over values, through the elements of lists and mappings. *)
Lemma Any_nested_ind (P : Any → Prop) :
  P VNone → (∀ b, P (VBool b)) → (∀ z, P (VInt z)) → (∀ s, P (VStr s)) →
  (∀ l, Forall P l → P (VList l)) →
  (∀ d, Forall (fun kv => P kv.2) d → P (VDict d)) →
  (∀ oid attrs, P (VObj oid attrs)) →
  ∀ v, P v.
Proof.
  intros HNone HBool HInt HStr HList HDict HObj.
  fix IH 1. intros [|b|z|s|l|d|oid attrs].
  - exact HNone.
  - apply HBool.
  - apply HInt.
  - apply HStr.
  - apply HList. induction l as [|x l IHl]; constructor; [apply IH|exact IHl].
  - apply HDict. induction d as [|[k x] d IHd]; constructor;
      [apply IH|exact IHd].
  - apply HObj.
Qed.

Lemma dict_get_elem_of (k : dict_key) (v : Any) (d : dict) :
  NoDup d.*1 → (k, v) ∈ d → dict_get k d = Some v.
Proof.
  induction d as [|[k0 v0] d IH]; intros Hnd Hin.
  - by apply elem_of_nil in Hin.
  - rewrite fmap_cons in Hnd. apply NoDup_cons in Hnd as [Hk0 Hnd].
    cbn [dict_get]. apply elem_of_cons in Hin as [[= -> ->]|Hin].
    + by rewrite key_eqb_refl.
    + destruct (key_eqb k k0) eqn:E; [|by apply IH].
      apply key_eqb_eq in E as ->. exfalso. apply Hk0.
      apply list_elem_of_fmap. by exists (k0, v).
Qed.

(** A well-formed value equals itself. *)
Lemma py_eq_refl (v : Any) : well_formed v → py_eq v v = true.
Proof.
  induction v as [|b|z|s|l IHl|d IHd|oid attrs] using Any_nested_ind;
    intros Hwf; cbn [py_eq].
  - reflexivity.
  - by destruct b.
  - apply Z.eqb_refl.
  - apply String.eqb_refl.
  - cbn [well_formed] in Hwf.
    induction l as [|x l IH]; [reflexivity|].
    apply Forall_cons in IHl as [Hx Hl]. destruct Hwf as [Hwx Hwl].
    by rewrite (Hx Hwx), (IH Hl Hwl).
  - cbn [well_formed] in Hwf. destruct Hwf as [Hnd Hwf].
    rewrite Nat.eqb_refl. cbn [andb].
    assert (Hsub : ∀ d', d' ⊆ d →
      Forall (fun kv => well_formed kv.2 → py_eq kv.2 kv.2 = true) d' →
      (fix all (d0 : dict) : Prop :=
         match d0 with
         | [] => True
         | (_, x) :: d1 => well_formed x ∧ all d1
         end) d' →
      (fix all_in (d0 : dict) : bool :=
         match d0 with
         | [] => true
         | (k, v) :: d1 =>
             match dict_get k d with
             | Some w => py_eq v w
             | None => false
             end && all_in d1
         end) d' = true).
    { induction d' as [|[k x] d' IH]; intros Hin Hall Hw; [reflexivity|].
      apply Forall_cons in Hall as [Hx Hall]. destruct Hw as [Hwx Hw].
      cbn [snd] in Hx.
      rewrite (dict_get_elem_of k x d Hnd) by (apply Hin; by left).
      rewrite (Hx Hwx). cbn [andb]. apply IH; [|done..].
      intros kv Hkv. apply Hin. by right. }
    by apply Hsub.
  - apply Pos.eqb_refl.
Qed.

(** The search finds a value that equals itself, no later than where it
    stands. *)
Lemma list_index_found (v : Any) (before after : list Any) :
  py_eq v v = true →
  ∃ i, list_index v (before ++ v :: after) = Some i ∧ i ≤ length before.
Proof.
  intros Hv. induction before as [|x before (i & Hi & Hle)]; cbn [app list_index].
  - rewrite Hv. exists 0. split; [done|simpl; lia].
  - destruct (py_eq x v).
    + exists 0. split; [done|simpl; lia].
    + rewrite Hi. exists (S i). split; [done|simpl; lia].
Qed.

(** X24.  Insert, then search: an entry that is true (and well formed) is
    found by the search block in the emitted list, whatever the position:
    the search emits [index], within [len(list) + len(entries)], and then
    [found = True]. *)
Theorem insert_then_search (input_data : AddToListBlock.Input) :
  truthy (AddToListBlock.entry input_data) = true →
  well_formed (AddToListBlock.entry input_data) →
  ∃ (updated : list Any) (i : nat),
    AddToListBlock.run input_data = ([("updated_list", VList updated)], inr tt)
    ∧ FindInListBlock.run
        {| FindInListBlock.list := updated;
           FindInListBlock.value := AddToListBlock.entry input_data |}
      = ([("index", VInt (Z.of_nat i)); ("found", VBool true)], inr tt)
    ∧ i ≤ length (AddToListBlock.list input_data)
          + length (AddToListBlock.entries input_data).
Proof.
  intros Htrue Hwf. rewrite add_to_list_run, Htrue. cbv zeta.
  set (l := AddToListBlock.list input_data).
  set (es := AddToListBlock.entries input_data).
  set (entry := AddToListBlock.entry input_data) in *.
  assert (Hshape : ∃ before after,
    match AddToListBlock.position input_data with
    | Some pos =>
        py_slice None (Some pos) l ++ (es ++ [entry]) ++ py_slice (Some pos) None l
    | None => l ++ es ++ [entry]
    end = (before ++ es) ++ entry :: after
    ∧ length before ≤ length l).
  { destruct (AddToListBlock.position input_data) as [pos|].
    - exists (py_slice None (Some pos) l), (py_slice (Some pos) None l).
      split; [by rewrite <- !app_assoc|].
      rewrite <- (py_slice_split pos l) at 2. rewrite length_app. lia.
    - exists l, []. split; [by rewrite <- !app_assoc|done]. }
  destruct Hshape as (before & after & -> & Hlen).
  destruct (list_index_found entry (before ++ es) after (py_eq_refl _ Hwf))
    as (i & Hi & Hle).
  eexists _, i. split; [reflexivity|]. split.
  - unfold FindInListBlock.run, index.
    cbn [FindInListBlock.list FindInListBlock.value]. by rewrite Hi.
  - rewrite length_app in Hle. lia.
Qed.

Lemma insert_then_search_witness :
  let input_data :=
    {| AddToListBlock.list := [VStr "a"; VStr "b"];
       AddToListBlock.entry := VDict [(KStr "k", VList [VInt 1])];
       AddToListBlock.entries := [VStr "f"];
       AddToListBlock.position := Some 1%Z |} in
  ∃ (updated : list Any) (i : nat),
    AddToListBlock.run input_data = ([("updated_list", VList updated)], inr tt)
    ∧ FindInListBlock.run
        {| FindInListBlock.list := updated;
           FindInListBlock.value := VDict [(KStr "k", VList [VInt 1])] |}
      = ([("index", VInt (Z.of_nat i)); ("found", VBool true)], inr tt)
    ∧ i ≤ 3.
Proof.
  intros input_data.
  apply (insert_then_search input_data); [reflexivity|].
  simpl. split; [|tauto].
  apply (bool_decide_unpack _). reflexivity.
Defined.

(** ** List search: booleans and integers *)

Lemma py_eq_bool_as_int (x : Any) (b : bool) :
  py_eq x (VBool b) = py_eq x (VInt (Z.b2z b)).
Proof. destruct x as [|y| | | | |]; try reflexivity. by destruct y, b. Qed.

Lemma list_index_bool_as_int (l : list Any) (b : bool) :
  list_index (VBool b) l = list_index (VInt (Z.b2z b)) l.
Proof.
  induction l as [|x l IH]; [reflexivity|].
  cbn [list_index]. by rewrite py_eq_bool_as_int, IH.
Qed.

(** X25.  The search compares as Python does, where [True] is 1 and [False]
    is 0: searching for a boolean reports an index exactly when searching
    for that integer does, and it is the same index. *)
Theorem find_in_list_bool_as_int (l : list Any) (b : bool) (i : Z) :
  FindInListBlock.run
    {| FindInListBlock.list := l; FindInListBlock.value := VBool b |}
  = ([("index", VInt i); ("found", VBool true)], inr tt)
  ↔ FindInListBlock.run
      {| FindInListBlock.list := l; FindInListBlock.value := VInt (Z.b2z b) |}
    = ([("index", VInt i); ("found", VBool true)], inr tt).
Proof.
  unfold FindInListBlock.run, index.
  cbn [FindInListBlock.list FindInListBlock.value].
  rewrite list_index_bool_as_int.
  by destruct (list_index (VInt (Z.b2z b)) l).
Qed.

(** ** Chained insertions on shared lists *)

(** X26.  An emitted list stays as it is when it is inserted into again:
    after one insertion has emitted the list at [r1], a second insertion
    that takes [r1] as its [list] (with any entry, position and batch held
    by the store) emits another object and leaves the list at [r1]
    unchanged. *)
Theorem chained_insertions_do_not_interfere (s : Store.state)
    (first : Store.AddToListBlock.Input) (l es : list Any) :
  Store.heap s !! Store.AddToListBlock.list first = Some (Store.CList l) →
  Store.heap s !! Store.AddToListBlock.entries first = Some (Store.CList es) →
  ∃ (r1 : Store.ref) (s1 : Store.state) (updated1 : list Any),
    Store.AddToListBlock.run first s = Some (tt, s1)
    ∧ Store.emitted s1 = Store.emitted s ++ [("updated_list", r1)]
    ∧ Store.heap s1 !! r1 = Some (Store.CList updated1)
    ∧ ∀ (entry : Any) (position : option Z) (batch : Store.ref)
        (batch_items : list Any),
        Store.heap s1 !! batch = Some (Store.CList batch_items) →
        ∃ (r2 : Store.ref) (s2 : Store.state),
          Store.AddToListBlock.run
            {| Store.AddToListBlock.list := r1;
               Store.AddToListBlock.entry := entry;
               Store.AddToListBlock.entries := batch;
               Store.AddToListBlock.position := position |} s1
          = Some (tt, s2)
          ∧ Store.emitted s2
            = Store.emitted s ++ [("updated_list", r1); ("updated_list", r2)]
          ∧ r2 ≠ r1
          ∧ Store.heap s2 !! r1 = Some (Store.CList updated1).
Proof.
  intros Hl Hes.
  destruct (add_to_list_frame s first l es Hl Hes)
    as (r1 & updated1 & s1 & Hrun1 & _ & _ & Hr1 & Hout1 & _).
  exists r1, s1, updated1. split; [exact Hrun1|]. split; [exact Hout1|].
  split; [exact Hr1|]. intros entry position batch batch_items Hbatch.
  destruct (add_to_list_frame s1
              {| Store.AddToListBlock.list := r1;
                 Store.AddToListBlock.entry := entry;
                 Store.AddToListBlock.entries := batch;
                 Store.AddToListBlock.position := position |}
              updated1 batch_items Hr1 Hbatch)
    as (r2 & updated2 & s2 & Hrun2 & Hfresh & Hkept & _ & Hout2 & _).
  assert (Hin : r1 ∈ dom (Store.heap s1)) by (apply elem_of_dom; eauto).
  exists r2, s2. split; [exact Hrun2|].
  split; [by rewrite Hout2, Hout1, <- app_assoc|].
  split; [by intros ->|]. by rewrite (Hkept r1 Hin).
Qed.

Lemma chained_insertions_do_not_interfere_witness :
  let s :=
    {| Store.heap :=
         <[1%positive := Store.CList [VStr "a"]]>
           (<[2%positive := Store.CList [VStr "f"]]> ∅);
       Store.emitted := [] |} in
  let first :=
    {| Store.AddToListBlock.list := 1%positive;
       Store.AddToListBlock.entry := VStr "e";
       Store.AddToListBlock.entries := 2%positive;
       Store.AddToListBlock.position := None |} in
  ∃ (r1 : Store.ref) (s1 : Store.state) (updated1 : list Any),
    Store.AddToListBlock.run first s = Some (tt, s1)
    ∧ Store.heap s1 !! r1 = Some (Store.CList updated1).
Proof.
  intros s first.
  destruct (chained_insertions_do_not_interfere s first [VStr "a"] [VStr "f"]
              eq_refl eq_refl)
    as (r1 & s1 & updated1 & Hrun & _ & Hr1 & _).
  by exists r1, s1, updated1.
Defined.
